(** * zerospeech2021: the evaluation command (cli/evaluate.py)

    A shallow embedding of [zerospeech2021/cli/evaluate.py]: the four
    per-track drivers [eval_lexical], [eval_semantic], [eval_syntactic],
    [eval_phonetic] and the click command [evaluate].

    The program is effectful Python: it reads the process environment,
    queries and changes the filesystem, prints, registers an exit hook,
    raises and catches exceptions.  It is modelled in a state-and-exception
    monad.  The operating system, pandas, PyYAML and the four scoring
    modules of the package are not part of the file; they are taken as a
    record of operations over an abstract world, so that every theorem
    holds whatever they do.  Each call the program makes to one of them is
    logged, with its arguments, in a trace. *)

From Stdlib Require Import ZArith List String Ascii Bool.
From stdpp Require Import base option list gmap strings.

Open Scope string_scope.
Open Scope list_scope.

(** ** Python exceptions *)

(** The exception classes the program can meet.  [ValueError] stands for
    the class and its subclasses, which is what [except ValueError]
    catches; its argument is [str(error)].  [OtherError] is any class that
    does not derive from [ValueError]. *)
Inductive exn : Type :=
| ValueError (msg : string)
| FileNotFoundError (msg : string)
| KeyError (key : string)
| TypeError (msg : string)
| SystemExit (code : Z)
| OtherError (cls msg : string).

Inductive Res (A : Type) : Type :=
| Ok (a : A)
| Raise (e : exn).
Arguments Ok {A} a.
Arguments Raise {A} e.

Definition is_ValueError (e : exn) : bool :=
  match e with ValueError _ => true | _ => false end.

(** ** pathlib.Path (POSIX flavour)

    A path is its anchor (absolute or not) and its components, as
    [PurePosixPath.parts] has them. *)
Record Path : Type := mkPath { absolute : bool; parts : list string }.

Fixpoint split_slash (s cur : string) : list string :=
  match s with
  | EmptyString => [cur]
  | String c s' =>
      if Ascii.eqb c "/"%char then cur :: split_slash s' ""
      else split_slash s' (cur +:+ String c "")
  end.

Definition keep_part (c : string) : bool :=
  negb (String.eqb c "" || String.eqb c ".").

(** [pathlib.Path(s)]: empty and ["."] components are dropped. *)
Definition path_of_string (s : string) : Path :=
  mkPath (match s with String c _ => Ascii.eqb c "/"%char | _ => false end)
         (filter (fun c => keep_part c = true) (split_slash s "")).

(** [str(p)] *)
Definition str (p : Path) : string :=
  if absolute p then "/" +:+ String.concat "/" (parts p)
  else match parts p with
       | [] => "."
       | _ => String.concat "/" (parts p)
       end.

(** [p / c] for a string [c]: an absolute right operand replaces [p]. *)
Definition div (p : Path) (c : string) : Path :=
  let q := path_of_string c in
  if absolute q then q else mkPath (absolute p) (parts p ++ parts q).

Notation "p // c" := (div p c) (at level 40, left associativity).
Arguments div : simpl never.
Arguments path_of_string : simpl never.
Arguments str : simpl never.

(** [p.name] *)
Definition name (p : Path) : string := List.last (parts p) "".

(** After staging, the variable [submission] of [evaluate] holds either a
    [pathlib.Path] (a directory submission, line 124) or the [str] returned
    by [tempfile.mkdtemp()] (an unzipped submission, line 133). *)
Inductive PathLike : Type :=
| PPath (p : Path)
| PStr (s : string).

(** [submission / c]: [str] has no [/] operator. *)
Definition truediv (submission : PathLike) (c : string) : Res Path :=
  match submission with
  | PPath p => Ok (p // c)
  | PStr _ => Raise (TypeError "unsupported operand type(s) for /: 'str' and 'str'")
  end.

(** ** Python objects returned by [yaml.safe_load] *)
#[local] Set Warnings "-register-all".
Inductive pyobj : Type :=
| PyNone
| PyBool (b : bool)
| PyInt (z : Z)
| PyStr (s : string)
| PyList (l : list pyobj)
| PyDict (d : gmap string pyobj).

(** [o[key]] for a string key. *)
Definition getitem (o : pyobj) (key : string) : Res pyobj :=
  match o with
  | PyDict d =>
      match d !! key with
      | Some v => Ok v
      | None => Raise (KeyError key)
      end
  | PyNone => Raise (TypeError "'NoneType' object is not subscriptable")
  | PyBool _ => Raise (TypeError "'bool' object is not subscriptable")
  | PyInt _ => Raise (TypeError "'int' object is not subscriptable")
  | PyStr _ => Raise (TypeError "string indices must be integers")
  | PyList _ => Raise (TypeError "list indices must be integers or slices, not str")
  end.

(** ** pandas.DataFrame.to_csv keyword arguments *)
Record csv_kwargs : Type := mkKw {
  kw_index : bool;
  kw_header : bool;
  kw_float_format : option string
}.

(** pandas' defaults: index column written, header row written, floats
    written with [repr]. *)
Definition csv_defaults : csv_kwargs := mkKw true true None.

(** The one call shape of the file: [index=False, float_format='%.4f']. *)
Definition score_kwargs : csv_kwargs :=
  mkKw false (kw_header csv_defaults) (Some "%.4f").

(** ** The world outside the file

    [World] is whatever the operating system holds (the filesystem);
    [DataFrame] is pandas' table type.  Queries ([resolve], [is_dir],
    [is_file], [is_zipfile], reading a file) do not change the world; the
    other operations may change it in any way and may raise anything. *)
Record Externals (World DataFrame : Type) : Type := mkExternals {
  (* pathlib *)
  path_resolve : World -> Path -> Res Path;          (* p.resolve(strict=True) *)
  path_is_dir : World -> Path -> bool;               (* p.is_dir() *)
  path_is_file : World -> Path -> bool;              (* p.is_file() *)
  path_mkdir : Path -> World -> Res unit * World;    (* p.mkdir(exist_ok=True, parents=True) *)
  path_read_text : World -> Path -> Res string;      (* p.open('r').read() *)
  (* zipfile, tempfile, shutil *)
  zipfile_is_zipfile : World -> Path -> bool;
  zipfile_extractall : Path -> string -> World -> Res unit * World;
  tempfile_mkdtemp : World -> Res string * World;
  shutil_rmtree : string -> World -> World;
  (* yaml, and str() of a loaded object inside an f-string *)
  yaml_safe_load : string -> Res pyobj;
  py_str : pyobj -> string;
  (* the scoring modules of the package *)
  lexical_evaluate :
    Path -> Path -> World -> Res (DataFrame * DataFrame * DataFrame) * World;
  semantic_evaluate :
    Path -> Path -> Path -> pyobj -> pyobj -> World -> Res DataFrame * World;
  syntactic_evaluate :
    Path -> Path -> World -> Res (DataFrame * DataFrame) * World;
  phonetic_evaluate :
    Path -> Path -> Path -> string -> World -> Res unit * World;
  (* pandas *)
  to_csv : DataFrame -> Path -> csv_kwargs -> World -> Res unit * World
}.
Arguments path_resolve {World DataFrame} _ _ _.
Arguments path_is_dir {World DataFrame} _ _ _.
Arguments path_is_file {World DataFrame} _ _ _.
Arguments path_mkdir {World DataFrame} _ _ _.
Arguments path_read_text {World DataFrame} _ _ _.
Arguments zipfile_is_zipfile {World DataFrame} _ _ _.
Arguments zipfile_extractall {World DataFrame} _ _ _ _.
Arguments tempfile_mkdtemp {World DataFrame} _ _.
Arguments shutil_rmtree {World DataFrame} _ _ _.
Arguments yaml_safe_load {World DataFrame} _ _.
Arguments py_str {World DataFrame} _ _.
Arguments lexical_evaluate {World DataFrame} _ _ _ _.
Arguments semantic_evaluate {World DataFrame} _ _ _ _ _ _ _.
Arguments syntactic_evaluate {World DataFrame} _ _ _ _.
Arguments phonetic_evaluate {World DataFrame} _ _ _ _ _ _.
Arguments to_csv {World DataFrame} _ _ _ _ _.

(** One entry per call made to the outside, in program order. *)
Inductive Event (DataFrame : Type) : Type :=
| EvResolve (p : Path)
| EvIsDir (p : Path)
| EvIsFile (p : Path)
| EvIsZipfile (p : Path)
| EvMkdtemp
| EvAtexitRegister (dir : string)
| EvExtractAll (archive : Path) (dest : string)
| EvMkdir (p : Path)
| EvReadText (p : Path)
| EvYamlLoad (text : string)
| EvLexical (gold submitted : Path)
| EvSemantic (gold pairs submitted : Path) (metric pooling : pyobj)
| EvSyntactic (gold submitted : Path)
| EvPhonetic (features abx output : Path) (kind : string)
| EvToCsv (df : DataFrame) (p : Path) (kw : csv_kwargs).
Arguments EvResolve {DataFrame} p.
Arguments EvIsDir {DataFrame} p.
Arguments EvIsFile {DataFrame} p.
Arguments EvIsZipfile {DataFrame} p.
Arguments EvMkdtemp {DataFrame}.
Arguments EvAtexitRegister {DataFrame} dir.
Arguments EvExtractAll {DataFrame} archive dest.
Arguments EvMkdir {DataFrame} p.
Arguments EvReadText {DataFrame} p.
Arguments EvYamlLoad {DataFrame} text.
Arguments EvLexical {DataFrame} gold submitted.
Arguments EvSemantic {DataFrame} gold pairs submitted metric pooling.
Arguments EvSyntactic {DataFrame} gold submitted.
Arguments EvPhonetic {DataFrame} features abx output kind.
Arguments EvToCsv {DataFrame} df p kw.

(** The state of the process: the world, [os.environ], what was printed
    (one entry per [print] call), the directories registered with
    [atexit.register(shutil.rmtree, _)], and the trace. *)
Record State (World DataFrame : Type) : Type := mkState {
  world : World;
  environ : gmap string string;
  stdout : list string;
  atexit : list string;
  trace : list (Event DataFrame)
}.
Arguments mkState {World DataFrame} _ _ _ _ _.
Arguments world {World DataFrame} _.
Arguments environ {World DataFrame} _.
Arguments stdout {World DataFrame} _.
Arguments atexit {World DataFrame} _.
Arguments trace {World DataFrame} _.

(** The environment variable read by [evaluate]. *)
Definition TEST_GOLD : string := "ZEROSPEECH2021_TEST_GOLD".

(** The four [is_flag] options. *)
Record Flags : Type := mkFlags {
  no_phonetic : bool;
  no_lexical : bool;
  no_syntactic : bool;
  no_semantic : bool
}.

(** ** The monad: state and exceptions *)
Section Monad.
Context {World DataFrame : Type}.

#[local] Abbreviation St := (State World DataFrame).
#[local] Abbreviation Ev := (Event DataFrame).

Definition M (A : Type) : Type := St -> Res A * St.

Definition ret {A} (a : A) : M A := fun st => (Ok a, st).
Definition raise {A} (e : exn) : M A := fun st => (Raise e, st).
Definition bind {A B} (m : M A) (k : A -> M B) : M B :=
  fun st => match m st with
            | (Ok a, st') => k a st'
            | (Raise e, st') => (Raise e, st')
            end.
Definition lift {A} (r : Res A) : M A := fun st => (r, st).

Definition log (ev : Ev) (st : St) : St :=
  mkState (world st) (environ st) (stdout st) (atexit st) (trace st ++ [ev]).

(** A call that only reads the world. *)
Definition query {A} (ev : Ev) (f : World -> Res A) : M A :=
  fun st => (f (world st), log ev st).

(** A call that may change the world. *)
Definition call {A} (ev : Ev) (f : World -> Res A * World) : M A :=
  fun st => let '(r, w) := f (world st) in
            (r, mkState w (environ st) (stdout st) (atexit st) (trace st ++ [ev])).

(** A call with no access to the world. *)
Definition pure_call {A} (ev : Ev) (r : Res A) : M A :=
  fun st => (r, log ev st).

Definition print (line : string) : M unit :=
  fun st => (Ok tt, mkState (world st) (environ st) (stdout st ++ [line])
                            (atexit st) (trace st)).

Definition atexit_register (dir : string) : M unit :=
  fun st => (Ok tt, mkState (world st) (environ st) (stdout st)
                            (atexit st ++ [dir])
                            (trace st ++ [EvAtexitRegister dir])).

Definition get_environ : M (gmap string string) :=
  fun st => (Ok (environ st), st).

(** [for x in l: body(x)] *)
Fixpoint for_each {X} (l : list X) (body : X -> M unit) : M unit :=
  match l with
  | [] => ret tt
  | x :: l' => bind (body x) (fun _ => for_each l' body)
  end.

End Monad.

Notation "x <- m ;; k" := (bind m (fun x => k))
  (at level 100, m at next level, right associativity).
Notation "m ;;; k" := (bind m (fun _ => k))
  (at level 100, right associativity).

Section Program.
Context {World DataFrame : Type}.
Variable ext : Externals World DataFrame.

#[local] Abbreviation St := (State World DataFrame).
#[local] Abbreviation Ev := (Event DataFrame).
#[local] Abbreviation M := (@M World DataFrame).

(** [df.to_csv(p, index=False, float_format='%.4f')] *)
Definition write_score (df : DataFrame) (p : Path) : M unit :=
  call (EvToCsv df p score_kwargs) (to_csv ext df p score_kwargs).

(** ** The four track drivers *)

Definition eval_lexical (dataset : Path) (submission : PathLike)
    (output : Path) (kinds : list string) : M unit :=
  for_each kinds (fun kind =>
    print ("Evaluating lexical " +:+ kind +:+ "...") ;;;
    let gold_file := dataset // "lexical" // kind // "gold.csv" in
    sub_lexical <- lift (truediv submission "lexical") ;;
    let submission_file := sub_lexical // (kind +:+ ".txt") in
    tables <- call (EvLexical gold_file submission_file)
                   (lexical_evaluate ext gold_file submission_file) ;;
    let '(by_pair, by_frequency, by_length) := tables in
    write_score by_pair
      (output // ("score_lexical_" +:+ kind +:+ "_by_pair.csv")) ;;;
    write_score by_frequency
      (output // ("score_lexical_" +:+ kind +:+ "_by_frequency.csv")) ;;;
    write_score by_length
      (output // ("score_lexical_" +:+ kind +:+ "_by_length.csv"))).

Definition eval_semantic (dataset : Path) (submission : PathLike)
    (output : Path) (kinds : list string) : M unit :=
  meta_file <- lift (truediv submission "meta.yaml") ;;
  text <- query (EvReadText meta_file) (fun w => path_read_text ext w meta_file) ;;
  meta <- pure_call (EvYamlLoad text) (yaml_safe_load ext text) ;;
  m1 <- lift (getitem meta "parameters") ;;
  m2 <- lift (getitem m1 "semantic") ;;
  metric <- lift (getitem m2 "metric") ;;
  p1 <- lift (getitem meta "parameters") ;;
  p2 <- lift (getitem p1 "semantic") ;;
  pooling <- lift (getitem p2 "pooling") ;;
  for_each kinds (fun kind =>
    print ("Evaluating semantic " +:+ kind +:+ " (metric=" +:+ py_str ext metric
           +:+ ", pooling=" +:+ py_str ext pooling +:+ ")...") ;;;
    let gold_file := dataset // "semantic" // kind // "gold.csv" in
    let pairs_file := dataset // "semantic" // kind // "pairs.csv" in
    sub_semantic <- lift (truediv submission "semantic") ;;
    let sub_kind := sub_semantic // kind in
    score <- call (EvSemantic gold_file pairs_file sub_kind metric pooling)
                  (semantic_evaluate ext gold_file pairs_file sub_kind metric pooling) ;;
    write_score score (output // ("score_semantic_" +:+ kind +:+ ".csv"))).

Definition eval_syntactic (dataset : Path) (submission : PathLike)
    (output : Path) (kinds : list string) : M unit :=
  for_each kinds (fun kind =>
    print ("Evaluating syntactic " +:+ kind +:+ "...") ;;;
    let gold_file := dataset // "syntactic" // kind // "gold.csv" in
    sub_syntactic <- lift (truediv submission "syntactic") ;;
    let submission_file := sub_syntactic // (kind +:+ ".txt") in
    tables <- call (EvSyntactic gold_file submission_file)
                   (syntactic_evaluate ext gold_file submission_file) ;;
    let '(by_pair, by_type) := tables in
    write_score by_pair
      (output // ("score_syntactic_" +:+ kind +:+ "_by_pair.csv")) ;;;
    write_score by_type
      (output // ("score_syntactic_" +:+ kind +:+ "_by_type.csv"))).

Definition eval_phonetic (dataset : Path) (submission : PathLike)
    (output : Path) (kinds : list string) : M unit :=
  let abx_data := dataset // "phonetic" // "abx_features" in
  for_each kinds (fun kind =>
    print ("Evaluating phonetic " +:+ kind +:+ "...") ;;;
    sub_phonetic <- lift (truediv submission "phonetic") ;;
    let features_location := sub_phonetic // kind in
    call (EvPhonetic features_location abx_data output kind)
         (phonetic_evaluate ext features_location abx_data output kind)).

(** ** The command *)

(** Lines 113-116: the splits in scope and the gold root to resolve. *)
Definition resolve_kinds (env : gmap string string) (dataset : Path)
    : list string * Path :=
  let kinds := ["dev"] in
  match env !! TEST_GOLD with
  | Some gold => (kinds ++ ["test"], path_of_string gold)
  | None => (kinds, dataset)
  end.

(** Lines 118-121: "ensures the dataset exists". *)
Definition ensure_dataset (dataset : Path) : M Path :=
  dataset <- query (EvResolve dataset) (fun w => path_resolve ext w dataset) ;;
  is_dir <- query (EvIsDir dataset) (fun w => Ok (path_is_dir ext w dataset)) ;;
  if negb is_dir
  then raise (ValueError ("dataset not found: " +:+ str dataset))
  else ret dataset.

(** Lines 123-136: "ensures the submission exists, it it is a zip,
    uncompress it".  [and] is short-circuit: [is_zipfile] is asked only of
    a regular file. *)
Definition stage_submission (submission : Path) : M PathLike :=
  submission <- query (EvResolve submission)
                      (fun w => path_resolve ext w submission) ;;
  is_file <- query (EvIsFile submission)
                   (fun w => Ok (path_is_file ext w submission)) ;;
  is_zip <- (if is_file
             then query (EvIsZipfile submission)
                        (fun w => Ok (zipfile_is_zipfile ext w submission))
             else ret false) ;;
  if is_file && is_zip then
    submission_unzip <- call EvMkdtemp (tempfile_mkdtemp ext) ;;
    atexit_register submission_unzip ;;;
    print ("Unzip submission ot " +:+ submission_unzip +:+ "...") ;;;
    call (EvExtractAll submission submission_unzip)
         (zipfile_extractall ext submission submission_unzip) ;;;
    ret (PStr submission_unzip)
  else
    is_dir <- query (EvIsDir submission)
                    (fun w => Ok (path_is_dir ext w submission)) ;;
    if negb is_dir
    then raise (ValueError ("submssion is not a zip file or a directory: "
                            +:+ str submission))
    else ret (PPath submission).

(** Lines 138-139. *)
Definition ensure_output (output_directory : Path) : M unit :=
  is_dir <- query (EvIsDir output_directory)
                  (fun w => Ok (path_is_dir ext w output_directory)) ;;
  if negb is_dir
  then call (EvMkdir output_directory) (path_mkdir ext output_directory)
  else ret tt.

(** Lines 141-151. *)
Definition run_tracks (dataset : Path) (submission : PathLike)
    (output_directory : Path) (kinds : list string) (flags : Flags) : M unit :=
  (if negb (no_lexical flags)
   then eval_lexical dataset submission output_directory kinds else ret tt) ;;;
  (if negb (no_semantic flags)
   then eval_semantic dataset submission output_directory kinds else ret tt) ;;;
  (if negb (no_syntactic flags)
   then eval_syntactic dataset submission output_directory kinds else ret tt) ;;;
  (if negb (no_phonetic flags)
   then eval_phonetic dataset submission output_directory kinds else ret tt).

(** The body of the [try] block, lines 108-151. *)
Definition evaluate_body (dataset submission output_directory : Path)
    (flags : Flags) : M unit :=
  env <- get_environ ;;
  let '(kinds, dataset) := resolve_kinds env dataset in
  dataset <- ensure_dataset dataset ;;
  submission <- stage_submission submission ;;
  ensure_output output_directory ;;;
  run_tracks dataset submission output_directory kinds flags.

(** [evaluate]: the body under [except ValueError as error], lines
    107-154.  [sys.exit(-1)] raises [SystemExit(-1)]. *)
Definition evaluate (dataset submission output_directory : Path)
    (flags : Flags) : M unit :=
  fun st =>
    match evaluate_body dataset submission output_directory flags st with
    | (Raise (ValueError error), st') =>
        (print ("ERROR: " +:+ error) ;;; raise (SystemExit (-1))) st'
    | other => other
    end.

(** ** The process around the command

    The exit status is 0 on return, the argument of [sys.exit] on
    [SystemExit], 1 on any other uncaught exception; then the hooks
    registered with [atexit] run, last registered first. *)
Definition exit_status (r : Res unit) : Z :=
  match r with
  | Ok _ => 0
  | Raise (SystemExit code) => code
  | Raise _ => 1
  end.

Definition run_atexit (st : St) : St :=
  mkState (fold_left (fun w dir => shutil_rmtree ext dir w) (rev (atexit st)) (world st))
          (environ st) (stdout st) [] (trace st).

Definition main (dataset submission output_directory : Path)
    (flags : Flags) (st : St) : Z * St :=
  let '(r, st') := evaluate dataset submission output_directory flags st in
  (exit_status r, run_atexit st').

End Program.

(** ** A small concrete world

    A filesystem as a finite map from absolute path strings to nodes, with
    simple stand-ins for the outside operations.  It is used to run the
    command on concrete inputs. *)
Module Toy.

Inductive node : Type :=
| Dir
| File (text : string)
| Zip (members : list (string * string)).

(** A table is its header and its rows, cells already rendered. *)
Definition Table : Type := list string * list (list string).

Definition from_root (p : Path) : Path := mkPath true (parts p).

Definition resolve (w : gmap string node) (p : Path) : Res Path :=
  match w !! str (from_root p) with
  | Some _ => Ok (from_root p)
  | None => Raise (FileNotFoundError
                     ("[Errno 2] No such file or directory: '" +:+ str p +:+ "'"))
  end.

Definition is_dir (w : gmap string node) (p : Path) : bool :=
  match w !! str (from_root p) with Some Dir => true | _ => false end.

Definition is_file (w : gmap string node) (p : Path) : bool :=
  match w !! str (from_root p) with
  | Some (File _) | Some (Zip _) => true
  | _ => false
  end.

Definition is_zipfile (w : gmap string node) (p : Path) : bool :=
  match w !! str (from_root p) with Some (Zip _) => true | _ => false end.

Definition mkdir (p : Path) (w : gmap string node) : Res unit * gmap string node :=
  match w !! str (from_root p) with
  | Some (File _) | Some (Zip _) =>
      (Raise (OtherError "FileExistsError" (str p)), w)
  | _ => (Ok tt, <[str (from_root p) := Dir]> w)
  end.

Definition read_text (w : gmap string node) (p : Path) : Res string :=
  match w !! str (from_root p) with
  | Some (File text) => Ok text
  | Some _ => Raise (OtherError "IsADirectoryError" (str p))
  | None => Raise (FileNotFoundError
                     ("[Errno 2] No such file or directory: '" +:+ str p +:+ "'"))
  end.

Definition mkdtemp (w : gmap string node) : Res string * gmap string node :=
  (Ok "/tmp/tmp0", <["/tmp/tmp0" := Dir]> w).

Definition extractall (archive : Path) (dest : string) (w : gmap string node)
    : Res unit * gmap string node :=
  match w !! str (from_root archive) with
  | Some (Zip members) =>
      (Ok tt, fold_right (fun m acc => <[dest +:+ "/" +:+ m.1 := File m.2]> acc)
                         w members)
  | _ => (Raise (OtherError "BadZipFile" "File is not a zip file"), w)
  end.

Definition rmtree (dir : string) (w : gmap string node) : gmap string node :=
  filter (fun kv => String.prefix dir kv.1 = false) w.

Definition meta_full : string :=
  "parameters: {semantic: {metric: cosine, pooling: mean}}".
Definition meta_no_pooling : string :=
  "parameters: {semantic: {metric: cosine}}".

Definition safe_load (text : string) : Res pyobj :=
  if String.eqb text meta_full then
    Ok (PyDict {[ "parameters" := PyDict {[ "semantic" :=
          PyDict (<["metric" := PyStr "cosine"]> {[ "pooling" := PyStr "mean" ]}) ]} ]})
  else if String.eqb text meta_no_pooling then
    Ok (PyDict {[ "parameters" := PyDict {[ "semantic" :=
          PyDict {[ "metric" := PyStr "cosine" ]} ]} ]})
  else if String.eqb text "" then Ok PyNone
  else Raise (OtherError "yaml.YAMLError" "could not parse").

Definition to_str (o : pyobj) : string :=
  match o with
  | PyStr s => s
  | PyNone => "None"
  | _ => "<object>"
  end.

Definition has_file (w : gmap string node) (p : Path) : bool := is_file w p.

Definition lexical (gold submitted : Path) (w : gmap string node)
    : Res (Table * Table * Table) * gmap string node :=
  if has_file w gold && has_file w submitted then
    (Ok ((["id"; "score"], [["w1"; "0.7500"]]),
         (["frequency"; "n"; "score"], [["low"; "1"; "0.7500"]]),
         (["length"; "n"; "score"], [["5"; "1"; "0.7500"]])), w)
  else (Raise (ValueError ("file not found: " +:+ str gold)), w).

Definition syntactic (gold submitted : Path) (w : gmap string node)
    : Res (Table * Table) * gmap string node :=
  if has_file w gold && has_file w submitted then
    (Ok ((["id"; "score"], [["s1"; "1.0000"]]),
         (["type"; "score"], [["agreement"; "1.0000"]])), w)
  else (Raise (ValueError ("file not found: " +:+ str gold)), w).

Definition semantic_table : Table :=
  (["type"; "dataset"; "score"], [["synthetic"; "mturk"; "12.5000"]]).

Definition semantic (gold pairs submitted : Path) (metric pooling : pyobj)
    (w : gmap string node) : Res Table * gmap string node :=
  if has_file w gold && has_file w pairs && is_dir w submitted then
    (Ok semantic_table, w)
  else (Raise (ValueError ("file not found: " +:+ str gold)), w).

Definition phonetic (features abx output : Path) (kind : string)
    (w : gmap string node) : Res unit * gmap string node :=
  if is_dir w features && is_dir w abx then
    (Ok tt, <[str (from_root (output // "score_phonetic.csv")) := File "abx"]> w)
  else (Raise (ValueError ("features not found: " +:+ str features)), w).

Definition nl : string := String (ascii_of_nat 10) "".

Definition render (t : Table) (kw : csv_kwargs) : string :=
  String.concat nl ((if kw_header kw then [String.concat "," t.1] else [])
                      ++ map (String.concat ",") t.2).

Definition write_csv (df : Table) (p : Path) (kw : csv_kwargs)
    (w : gmap string node) : Res unit * gmap string node :=
  (Ok tt, <[str (from_root p) := File (render df kw)]> w).

Definition ext : Externals (gmap string node) Table :=
  {| path_resolve := resolve;
     path_is_dir := is_dir;
     path_is_file := is_file;
     path_mkdir := mkdir;
     path_read_text := read_text;
     zipfile_is_zipfile := is_zipfile;
     zipfile_extractall := extractall;
     tempfile_mkdtemp := mkdtemp;
     shutil_rmtree := rmtree;
     yaml_safe_load := safe_load;
     py_str := to_str;
     lexical_evaluate := lexical;
     semantic_evaluate := semantic;
     syntactic_evaluate := syntactic;
     phonetic_evaluate := phonetic;
     to_csv := write_csv |}.

(** A dataset with [dev] gold for the four tracks, an organizers' gold
    root with [dev] and [test] gold for the lexical track, a complete
    directory submission, one whose metadata lacks [pooling], a zipped
    submission and a plain text file. *)
Definition disk : gmap string node :=
  list_to_map
    [ ("/", Dir);
      ("/data", Dir);
      ("/data/lexical/dev/gold.csv", File "gold");
      ("/data/semantic/dev/gold.csv", File "gold");
      ("/data/semantic/dev/pairs.csv", File "pairs");
      ("/data/syntactic/dev/gold.csv", File "gold");
      ("/data/phonetic/abx_features", Dir);
      ("/gold", Dir);
      ("/gold/lexical/dev/gold.csv", File "gold");
      ("/gold/lexical/test/gold.csv", File "gold");
      ("/sub", Dir);
      ("/sub/meta.yaml", File meta_full);
      ("/sub/lexical/dev.txt", File "predictions");
      ("/sub/lexical/test.txt", File "predictions");
      ("/sub/semantic/dev", Dir);
      ("/sub/syntactic/dev.txt", File "predictions");
      ("/sub/phonetic/dev", Dir);
      ("/sub_nopool", Dir);
      ("/sub_nopool/meta.yaml", File meta_no_pooling);
      ("/sub_nopool/lexical/dev.txt", File "predictions");
      ("/sub_nopool/semantic/dev", Dir);
      ("/sub.zip", Zip [("lexical/dev.txt", "predictions")]);
      ("/notes.txt", File "hello") ].


Definition start (env : gmap string string) : State (gmap string node) Table :=
  mkState disk env [] [] [].

Definition only_lexical : Flags := mkFlags true false true true.
Definition only_semantic : Flags := mkFlags true true true false.
Definition lexical_and_semantic : Flags := mkFlags true false true false.
Definition all_tracks : Flags := mkFlags false false false false.



Definition p (s : string) : Path := path_of_string s.

End Toy.

(** ** The same world as an association list

    The first entry for a path is the one in force; writing a path puts
    the new entry in front and drops the older ones.  Runs on this world
    evaluate quickly, states included. *)
Module Shelf.
Import Toy.

Definition find_node (w : list (string * node)) (key : string) : option node :=
  match List.find (fun kv => String.eqb kv.1 key) w with
  | Some kv => Some kv.2
  | None => None
  end.

(** Writing replaces what the path held. *)
Definition put (key : string) (n : node) (w : list (string * node))
    : list (string * node) :=
  (key, n) :: List.filter (fun kv => negb (String.eqb kv.1 key)) w.

Definition resolve (w : list (string * node)) (p : Path) : Res Path :=
  match find_node w (str (from_root p)) with
  | Some _ => Ok (from_root p)
  | None => Raise (FileNotFoundError
                     ("[Errno 2] No such file or directory: '" +:+ str p +:+ "'"))
  end.

Definition is_dir (w : list (string * node)) (p : Path) : bool :=
  match find_node w (str (from_root p)) with Some Dir => true | _ => false end.

Definition is_file (w : list (string * node)) (p : Path) : bool :=
  match find_node w (str (from_root p)) with
  | Some (File _) | Some (Zip _) => true
  | _ => false
  end.

Definition is_zipfile (w : list (string * node)) (p : Path) : bool :=
  match find_node w (str (from_root p)) with Some (Zip _) => true | _ => false end.

Definition mkdir (p : Path) (w : list (string * node))
    : Res unit * list (string * node) :=
  match find_node w (str (from_root p)) with
  | Some (File _) | Some (Zip _) =>
      (Raise (OtherError "FileExistsError" (str p)), w)
  | _ => (Ok tt, put (str (from_root p)) Dir w)
  end.

Definition read_text (w : list (string * node)) (p : Path) : Res string :=
  match find_node w (str (from_root p)) with
  | Some (File text) => Ok text
  | Some _ => Raise (OtherError "IsADirectoryError" (str p))
  | None => Raise (FileNotFoundError
                     ("[Errno 2] No such file or directory: '" +:+ str p +:+ "'"))
  end.

Definition mkdtemp (w : list (string * node)) : Res string * list (string * node) :=
  (Ok "/tmp/tmp0", put "/tmp/tmp0" Dir w).

Definition extractall (archive : Path) (dest : string) (w : list (string * node))
    : Res unit * list (string * node) :=
  match find_node w (str (from_root archive)) with
  | Some (Zip members) =>
      (Ok tt, fold_right (fun m acc => put (dest +:+ "/" +:+ m.1) (File m.2) acc)
                         w members)
  | _ => (Raise (OtherError "BadZipFile" "File is not a zip file"), w)
  end.

(** Removal of a directory drops every path below it. *)
Definition rmtree (dir : string) (w : list (string * node)) : list (string * node) :=
  List.filter (fun kv => negb (String.prefix dir kv.1)) w.

Definition lexical (gold submitted : Path) (w : list (string * node))
    : Res (Table * Table * Table) * list (string * node) :=
  if is_file w gold && is_file w submitted then
    (Ok ((["id"; "score"], [["w1"; "0.7500"]]),
         (["frequency"; "n"; "score"], [["low"; "1"; "0.7500"]]),
         (["length"; "n"; "score"], [["5"; "1"; "0.7500"]])), w)
  else (Raise (ValueError ("file not found: " +:+ str gold)), w).

Definition syntactic (gold submitted : Path) (w : list (string * node))
    : Res (Table * Table) * list (string * node) :=
  if is_file w gold && is_file w submitted then
    (Ok ((["id"; "score"], [["s1"; "1.0000"]]),
         (["type"; "score"], [["agreement"; "1.0000"]])), w)
  else (Raise (ValueError ("file not found: " +:+ str gold)), w).

Definition semantic (gold pairs submitted : Path) (metric pooling : pyobj)
    (w : list (string * node)) : Res Table * list (string * node) :=
  if is_file w gold && is_file w pairs && is_dir w submitted then
    (Ok semantic_table, w)
  else (Raise (ValueError ("file not found: " +:+ str gold)), w).

Definition phonetic (features abx output : Path) (kind : string)
    (w : list (string * node)) : Res unit * list (string * node) :=
  if is_dir w features && is_dir w abx then
    (Ok tt, put (str (from_root (output // "score_phonetic.csv"))) (File "abx") w)
  else (Raise (ValueError ("features not found: " +:+ str features)), w).

Definition write_csv (df : Table) (p : Path) (kw : csv_kwargs)
    (w : list (string * node)) : Res unit * list (string * node) :=
  (Ok tt, put (str (from_root p)) (File (render df kw)) w).

Definition ext : Externals (list (string * node)) Table :=
  {| path_resolve := resolve;
     path_is_dir := is_dir;
     path_is_file := is_file;
     path_mkdir := mkdir;
     path_read_text := read_text;
     zipfile_is_zipfile := is_zipfile;
     zipfile_extractall := extractall;
     tempfile_mkdtemp := mkdtemp;
     shutil_rmtree := rmtree;
     yaml_safe_load := safe_load;
     py_str := to_str;
     lexical_evaluate := lexical;
     semantic_evaluate := semantic;
     syntactic_evaluate := syntactic;
     phonetic_evaluate := phonetic;
     to_csv := write_csv |}.

(** The disk of the runs: a dataset, a gold root with two splits, a
    submission directory, a submission whose metadata lacks the pooling,
    a zipped submission and a plain file. *)
Definition disk : list (string * node) :=
  [ ("/", Dir);
    ("/data", Dir);
    ("/data/lexical/dev/gold.csv", File "gold");
    ("/data/semantic/dev/gold.csv", File "gold");
    ("/data/semantic/dev/pairs.csv", File "pairs");
    ("/data/syntactic/dev/gold.csv", File "gold");
    ("/data/phonetic/abx_features", Dir);
    ("/gold", Dir);
    ("/gold/lexical/dev/gold.csv", File "gold");
    ("/gold/lexical/test/gold.csv", File "gold");
    ("/sub", Dir);
    ("/sub/meta.yaml", File meta_full);
    ("/sub/lexical/dev.txt", File "predictions");
    ("/sub/lexical/test.txt", File "predictions");
    ("/sub/semantic/dev", Dir);
    ("/sub/syntactic/dev.txt", File "predictions");
    ("/sub/phonetic/dev", Dir);
    ("/sub_nopool", Dir);
    ("/sub_nopool/meta.yaml", File meta_no_pooling);
    ("/sub.zip", Zip [("lexical/dev.txt", "predictions")]);
    ("/notes.txt", File "hello") ].

(** A process that starts on this disk with an empty environment. *)
Definition start : State (list (string * node)) Table :=
  mkState disk ∅ [] [] [].

End Shelf.

(** ** Observations on runs *)

(** The four tracks and their skip flags. *)
Inductive Track : Type := Phonetic | Lexical | Syntactic | Semantic.

Definition track_name (t : Track) : string :=
  match t with
  | Phonetic => "phonetic"
  | Lexical => "lexical"
  | Syntactic => "syntactic"
  | Semantic => "semantic"
  end.

Definition skipped (flags : Flags) (t : Track) : bool :=
  match t with
  | Phonetic => no_phonetic flags
  | Lexical => no_lexical flags
  | Syntactic => no_syntactic flags
  | Semantic => no_semantic flags
  end.

(** The canonical score file name of the specification. *)
Definition score_name (track split stratification extension : string) : string :=
  "score_" +:+ track +:+ "_" +:+ split +:+ "_" +:+ stratification
  +:+ "." +:+ extension.

Fixpoint count_char (c : ascii) (s : string) : nat :=
  match s with
  | EmptyString => 0
  | String c' s' => (if Ascii.eqb c c' then 1 else 0) + count_char c s'
  end.

(** [p] descends from [root] through the component [component]. *)
Definition below (root : Path) (component : string) (p : Path) : Prop :=
  exists rest, p = mkPath (absolute root) (parts root ++ component :: rest).

(** The metadata lookups of the semantic track, as the specification words
    them: the record at the submission root is read and parsed, then
    [parameters.semantic.metric] and [parameters.semantic.pooling] are
    looked up; any failure is the result. *)
Definition semantic_parameter (meta : pyobj) (key : string) : Res pyobj :=
  match getitem meta "parameters" with
  | Raise e => Raise e
  | Ok parameters =>
      match getitem parameters "semantic" with
      | Raise e => Raise e
      | Ok semantic => getitem semantic key
      end
  end.

Section Observations.
Context {World DataFrame : Type}.

#[local] Abbreviation St := (State World DataFrame).
#[local] Abbreviation Ev := (Event DataFrame).

(** [st] with more events logged and nothing else changed. *)
Definition logged (st : St) (tr : list Ev) : St :=
  mkState (world st) (environ st) (stdout st) (atexit st) (trace st ++ tr).

(** The events logged between two states of one run. *)
Definition new_events (st st' : St) : list Ev :=
  drop (length (trace st)) (trace st').

(** Every event a computation logs satisfies [P], whatever the state. *)
Definition emits {A} (P : Ev -> Prop) (m : @M World DataFrame A) : Prop :=
  forall st, exists tr, trace (m st).2 = trace st ++ tr /\ Forall P tr.

(** The trace splits into consecutive phases, possibly empty. *)
Fixpoint in_phases (phases : list (Ev -> Prop)) (tr : list Ev) : Prop :=
  match phases with
  | [] => tr = []
  | P :: phases' =>
      exists t1 t2, tr = t1 ++ t2 /\ Forall P t1 /\ in_phases phases' t2
  end.


Definition read_parameters (ext : Externals World DataFrame) (w : World)
    (submission : PathLike) : Res (pyobj * pyobj) :=
  match truediv submission "meta.yaml" with
  | Raise e => Raise e
  | Ok meta_file =>
      match path_read_text ext w meta_file with
      | Raise e => Raise e
      | Ok text =>
          match yaml_safe_load ext text with
          | Raise e => Raise e
          | Ok meta =>
              match semantic_parameter meta "metric" with
              | Raise e => Raise e
              | Ok metric =>
                  match semantic_parameter meta "pooling" with
                  | Raise e => Raise e
                  | Ok pooling => Ok (metric, pooling)
                  end
              end
          end
      end
  end.

(** Which track's scorer an event calls. *)
Definition event_track (ev : Ev) : option Track :=
  match ev with
  | EvLexical _ _ => Some Lexical
  | EvSemantic _ _ _ _ _ => Some Semantic
  | EvSyntactic _ _ => Some Syntactic
  | EvPhonetic _ _ _ _ => Some Phonetic
  | _ => None
  end.

(** The gold and the submitted locations handed to a scorer. *)
Definition gold_paths (ev : Ev) : list Path :=
  match ev with
  | EvLexical gold _ => [gold]
  | EvSemantic gold pairs _ _ _ => [gold; pairs]
  | EvSyntactic gold _ => [gold]
  | EvPhonetic _ abx _ _ => [abx]
  | _ => []
  end.

Definition submitted_paths (ev : Ev) : list Path :=
  match ev with
  | EvLexical _ submitted => [submitted]
  | EvSemantic _ _ submitted _ _ => [submitted]
  | EvSyntactic _ submitted => [submitted]
  | EvPhonetic features _ _ _ => [features]
  | _ => []
  end.

(** The tables written by the command itself, in order. *)
Definition csv_writes (tr : list Ev) : list (DataFrame * Path * csv_kwargs) :=
  omap (fun ev => match ev with
                  | EvToCsv df p kw => Some (df, p, kw)
                  | _ => None
                  end) tr.

(** Events that produce score files: a table written by the command, or a
    call of the phonetic scorer, which writes its own. *)
Definition is_score_write (ev : Ev) : bool :=
  match ev with
  | EvToCsv _ _ _ | EvPhonetic _ _ _ _ => true
  | _ => false
  end.

Definition is_mkdir (ev : Ev) : bool :=
  match ev with EvMkdir _ => true | _ => false end.

Definition is_mkdtemp (ev : Ev) : bool :=
  match ev with EvMkdtemp => true | _ => false end.

Definition is_meta_read (ev : Ev) : bool :=
  match ev with EvReadText _ | EvYamlLoad _ => true | _ => false end.

(** A semantic scoring step: the scorer call or the write of its table. *)
Definition is_semantic_scoring (ev : Ev) : bool :=
  match ev with
  | EvSemantic _ _ _ _ _ => true
  | EvToCsv _ p _ => String.prefix "score_semantic_" (name p)
  | _ => false
  end.

(** *** Score files (claim C5) *)

(** The shape the specification gives to every score file. *)
Definition csv_as_specified (ev : Ev) : Prop :=
  match ev with
  | EvToCsv _ p kw =>
      (exists track split stratification extension,
          name p = score_name track split stratification extension)
      /\ kw_header kw = true /\ kw_index kw = false
      /\ kw_float_format kw = Some "%.4f"
  | _ => True
  end.

(** The names the command gives to the files it writes in [output]. *)
Definition score_file_names (kinds : list string) : list string :=
  flat_map (fun kind =>
    [ score_name "lexical" kind "by_pair" "csv";
      score_name "lexical" kind "by_frequency" "csv";
      score_name "lexical" kind "by_length" "csv";
      score_name "syntactic" kind "by_pair" "csv";
      score_name "syntactic" kind "by_type" "csv";
      "score_semantic_" +:+ kind +:+ ".csv" ]) kinds.

Definition csv_as_written (output : Path) (kinds : list string) (ev : Ev) : Prop :=
  match ev with
  | EvToCsv _ p kw =>
      (exists file, file ∈ score_file_names kinds
                    /\ p = output // file /\ name p = file)
      /\ kw_header kw = true /\ kw_index kw = false
      /\ kw_float_format kw = Some "%.4f"
  | _ => True
  end.

(** *** Skipped tracks (claim C7) *)

(** An event that is no part of track [t]: not a call of its scorer, not
    the read of the metadata record (which only the semantic track reads),
    not the write of a file named [score_<t>...]. *)
Definition foreign_to (t : Track) (ev : Ev) : Prop :=
  match ev with
  | EvToCsv _ p _ => String.prefix ("score_" +:+ track_name t) (name p) = false
  | EvReadText _ | EvYamlLoad _ => t <> Semantic
  | _ => event_track ev <> Some t
  end.

(** A scorer is handed locations inside its own track's directories. *)
Definition in_own_tree (dataset submission : Path) (ev : Ev) : Prop :=
  forall t, event_track ev = Some t ->
    Forall (below dataset (track_name t)) (gold_paths ev)
    /\ Forall (below submission (track_name t)) (submitted_paths ev).

(** *** Phases of a run (claim C8) *)

Definition resolver_event (gold : Path) (ev : Ev) : Prop :=
  match ev with
  | EvResolve p => p = gold
  | EvIsDir _ => True
  | _ => False
  end.

Definition stager_event (submission : Path) (ev : Ev) : Prop :=
  match ev with
  | EvResolve p => p = submission
  | EvIsFile _ | EvIsZipfile _ | EvIsDir _ | EvMkdtemp
  | EvAtexitRegister _ | EvExtractAll _ _ => True
  | _ => False
  end.

Definition output_event (output : Path) (ev : Ev) : Prop :=
  match ev with
  | EvIsDir p | EvMkdir p => p = output
  | _ => False
  end.

Definition lexical_event (ev : Ev) : Prop :=
  match ev with
  | EvLexical _ _ => True
  | EvToCsv _ p _ => String.prefix "score_lexical_" (name p) = true
  | _ => False
  end.

Definition semantic_event (ev : Ev) : Prop :=
  match ev with
  | EvReadText _ | EvYamlLoad _ | EvSemantic _ _ _ _ _ => True
  | EvToCsv _ p _ => String.prefix "score_semantic_" (name p) = true
  | _ => False
  end.

Definition syntactic_event (ev : Ev) : Prop :=
  match ev with
  | EvSyntactic _ _ => True
  | EvToCsv _ p _ => String.prefix "score_syntactic_" (name p) = true
  | _ => False
  end.

Definition phonetic_event (ev : Ev) : Prop :=
  match ev with
  | EvPhonetic _ _ _ _ => True
  | _ => False
  end.


(** *** What each track driver can log

    The calls a driver makes for the splits [kinds], with gold root
    [dataset], staged submission [submission] and output directory
    [output]. *)
Definition lexical_step (dataset submission output : Path)
    (kinds : list string) (ev : Ev) : Prop :=
  exists kind, kind ∈ kinds /\
    (ev = EvLexical (dataset // "lexical" // kind // "gold.csv")
                    (submission // "lexical" // (kind +:+ ".txt"))
     \/ exists df stratification,
          stratification ∈ ["by_pair"; "by_frequency"; "by_length"] /\
          ev = EvToCsv df (output // score_name "lexical" kind stratification "csv")
                       score_kwargs).

Definition semantic_step (dataset submission output : Path)
    (kinds : list string) (ev : Ev) : Prop :=
  ev = EvReadText (submission // "meta.yaml")
  \/ (exists text, ev = EvYamlLoad text)
  \/ exists kind, kind ∈ kinds /\
       ((exists metric pooling,
            ev = EvSemantic (dataset // "semantic" // kind // "gold.csv")
                            (dataset // "semantic" // kind // "pairs.csv")
                            (submission // "semantic" // kind) metric pooling)
        \/ exists df,
             ev = EvToCsv df (output // ("score_semantic_" +:+ kind +:+ ".csv"))
                          score_kwargs).

Definition syntactic_step (dataset submission output : Path)
    (kinds : list string) (ev : Ev) : Prop :=
  exists kind, kind ∈ kinds /\
    (ev = EvSyntactic (dataset // "syntactic" // kind // "gold.csv")
                      (submission // "syntactic" // (kind +:+ ".txt"))
     \/ exists df stratification,
          stratification ∈ ["by_pair"; "by_type"] /\
          ev = EvToCsv df (output // score_name "syntactic" kind stratification "csv")
                       score_kwargs).

Definition phonetic_step (dataset submission output : Path)
    (kinds : list string) (ev : Ev) : Prop :=
  exists kind, kind ∈ kinds /\
    ev = EvPhonetic (submission // "phonetic" // kind)
                    (dataset // "phonetic" // "abx_features") output kind.

Definition track_step (t : Track) :
    Path -> Path -> Path -> list string -> Ev -> Prop :=
  match t with
  | Lexical => lexical_step
  | Semantic => semantic_step
  | Syntactic => syntactic_step
  | Phonetic => phonetic_step
  end.

(** Every list of events a computation logs satisfies [Q]. *)
Definition logs {A} (Q : list Ev -> Prop) (m : @M World DataFrame A) : Prop :=
  forall st, exists tr, trace (m st).2 = trace st ++ tr /\ Q tr.

(** A computation that leaves [atexit] and [os.environ] alone. *)
Definition quiet {A} (m : @M World DataFrame A) : Prop :=
  forall st, atexit (m st).2 = atexit st /\ environ (m st).2 = environ st.

(** The track phases of a run, in program order; a skipped track logs
    nothing. *)
Definition enabled_step (flags : Flags) (dataset submission output : Path)
    (kinds : list string) (t : Track) (ev : Ev) : Prop :=
  skipped flags t = false /\ track_step t dataset submission output kinds ev.

Definition track_phases (flags : Flags) (dataset submission output : Path)
    (kinds : list string) : list (Ev -> Prop) :=
  map (enabled_step flags dataset submission output kinds)
      [Lexical; Semantic; Syntactic; Phonetic].

Definition setup_phases (gold submission output : Path) : list (Ev -> Prop) :=
  [resolver_event gold; stager_event submission; output_event output].

(** The phase of a track. *)
Definition track_event (t : Track) : Ev -> Prop :=
  match t with
  | Lexical => lexical_event
  | Semantic => semantic_event
  | Syntactic => syntactic_event
  | Phonetic => phonetic_event
  end.

(** The events of the semantic track begin with the one read and the one
    parse of the metadata record, if it has any event at all. *)
Definition reads_meta_first (tr : list Ev) : Prop :=
  tr = []
  \/ (exists meta_file, tr = [EvReadText meta_file])
  \/ (exists meta_file text rest,
        tr = EvReadText meta_file :: EvYamlLoad text :: rest
        /\ Forall (fun ev => is_meta_read ev = false) rest).

(** An event that neither reads the metadata record nor scores the
    semantic track. *)
Definition not_semantic (ev : Ev) : Prop :=
  is_meta_read ev = false /\ is_semantic_scoring ev = false.

(** *** The claims C2 and C8 as the specification states them *)

(** C2 as stated: the body fails with a [ValueError]. *)
Definition rejected_with_ValueError (ext : Externals World DataFrame)
    (dataset submission output : Path) (flags : Flags) (st : St) : Prop :=
  exists message,
    (evaluate_body ext dataset submission output flags st).1
    = Raise (ValueError message).


(** *** The drivers, split by split *)




Definition phonetic_split_events (d s o : Path) (kind : string) : list Ev :=
  [ EvPhonetic (s // "phonetic" // kind) (d // "phonetic" // "abx_features")
               o kind ].

(** The splits the phonetic scorer was called for, in order. *)
Definition phonetic_calls (tr : list Ev) : list string :=
  omap (fun ev => match ev with
                  | EvPhonetic _ _ _ kind => Some kind
                  | _ => None
                  end) tr.

(** The directories registered for removal at exit, in order. *)
Definition registrations (tr : list Ev) : list string :=
  omap (fun ev => match ev with
                  | EvAtexitRegister dir => Some dir
                  | _ => None
                  end) tr.

(** An event of a track driver: a scorer call, a table write, or the read
    or parse of the metadata record. *)
Definition is_driver_event (ev : Ev) : bool :=
  match ev with
  | EvLexical _ _ | EvSemantic _ _ _ _ _ | EvSyntactic _ _ | EvPhonetic _ _ _ _
  | EvToCsv _ _ _ | EvReadText _ | EvYamlLoad _ => true
  | _ => false
  end.


(** The metadata record the semantic driver accepts: a readable file
    [meta.yaml] at the root of a directory submission that parses to a
    mapping whose [parameters] is a mapping whose [semantic] is a mapping
    with the keys [metric] and [pooling]. *)
Definition accepted_metadata (ext : Externals World DataFrame) (w : World)
    (submission : PathLike) (metric pooling : pyobj) : Prop :=
  exists s text top parameters semantic,
    submission = PPath s
    /\ path_read_text ext w (s // "meta.yaml") = Ok text
    /\ yaml_safe_load ext text = Ok (PyDict top)
    /\ top !! "parameters" = Some (PyDict parameters)
    /\ parameters !! "semantic" = Some (PyDict semantic)
    /\ semantic !! "metric" = Some metric
    /\ semantic !! "pooling" = Some pooling.

(** Every extraction into a directory comes after the registration of that
    directory for removal. *)
Definition registered_before_extraction (tr : list Ev) : Prop :=
  forall i archive dir,
    tr !! i = Some (EvExtractAll archive dir) ->
    exists j, j < i /\ tr !! j = Some (EvAtexitRegister dir).

(** An event that neither registers nor extracts. *)
Definition no_staging (ev : Ev) : Prop :=
  match ev with
  | EvAtexitRegister _ | EvExtractAll _ _ => False
  | _ => True
  end.


End Observations.

(** * Reasoning about runs *)

(** Case analysis on membership in a list given by its elements. *)
Ltac elem_cases H :=
  repeat (apply elem_of_cons in H as [H|H]);
  try (by apply elem_of_nil in H).

Section Reasoning.
Context {World DataFrame : Type}.
Variable ext : Externals World DataFrame.

#[local] Abbreviation St := (State World DataFrame).
#[local] Abbreviation Ev := (Event DataFrame).
#[local] Abbreviation M := (@M World DataFrame).

Lemma new_events_app (st st' : St) (tr : list Ev) :
  trace st' = trace st ++ tr -> new_events st st' = tr.
Proof. intros E. unfold new_events. rewrite E. apply drop_app_length. Qed.

Lemma logged_nil (st : St) : logged st [] = st.
Proof. destruct st. unfold logged. simpl. by rewrite app_nil_r. Qed.

Lemma logged_logged (st : St) (t1 t2 : list Ev) :
  logged (logged st t1) t2 = logged st (t1 ++ t2).
Proof. unfold logged. simpl. by rewrite app_assoc. Qed.

Lemma new_events_logged (st : St) (tr : list Ev) : new_events st (logged st tr) = tr.
Proof. by apply new_events_app. Qed.

(** ** Run equations of the first three steps *)

Lemma ensure_dataset_run (gold : Path) (st : St) :
  ensure_dataset ext gold st =
  match path_resolve ext (world st) gold with
  | Raise e => (Raise e, logged st [EvResolve gold])
  | Ok d =>
      if path_is_dir ext (world st) d
      then (Ok d, logged st [EvResolve gold; EvIsDir d])
      else (Raise (ValueError ("dataset not found: " +:+ str d)),
            logged st [EvResolve gold; EvIsDir d])
  end.
Proof.
  unfold ensure_dataset, bind, query. simpl.
  destruct (path_resolve ext (world st) gold) as [d|e]; [|done].
  simpl. destruct (path_is_dir ext (world st) d); simpl;
    unfold raise, ret, logged, log; simpl; by rewrite <- app_assoc.
Qed.

Lemma ensure_output_run (output : Path) (st : St) :
  ensure_output ext output st =
  if path_is_dir ext (world st) output
  then (Ok tt, logged st [EvIsDir output])
  else (let '(r, w) := path_mkdir ext output (world st) in
        (r, mkState w (environ st) (stdout st) (atexit st)
                    (trace st ++ [EvIsDir output; EvMkdir output]))).
Proof.
  unfold ensure_output, bind, query. simpl.
  destruct (path_is_dir ext (world st) output); simpl; [done|].
  unfold call. simpl. destruct (path_mkdir ext output (world st)) as [r w].
  by rewrite <- app_assoc.
Qed.

Lemma stage_submission_run (submission : Path) (st : St) :
  stage_submission ext submission st =
  match path_resolve ext (world st) submission with
  | Raise e => (Raise e, logged st [EvResolve submission])
  | Ok s =>
      if path_is_file ext (world st) s && zipfile_is_zipfile ext (world st) s then
        match tempfile_mkdtemp ext (world st) with
        | (Raise e, w1) =>
            (Raise e, mkState w1 (environ st) (stdout st) (atexit st)
                        (trace st ++ [EvResolve submission; EvIsFile s;
                                      EvIsZipfile s; EvMkdtemp]))
        | (Ok dir, w1) =>
            let '(r, w2) := zipfile_extractall ext s dir w1 in
            (match r with Ok _ => Ok (PStr dir) | Raise e => Raise e end,
             mkState w2 (environ st)
               (stdout st ++ ["Unzip submission ot " +:+ dir +:+ "..."])
               (atexit st ++ [dir])
               (trace st ++ [EvResolve submission; EvIsFile s; EvIsZipfile s;
                             EvMkdtemp; EvAtexitRegister dir;
                             EvExtractAll s dir]))
        end
      else
        (if path_is_dir ext (world st) s then Ok (PPath s)
         else Raise (ValueError ("submssion is not a zip file or a directory: "
                                 +:+ str s)),
         logged st (EvResolve submission :: EvIsFile s ::
                    (if path_is_file ext (world st) s then [EvIsZipfile s] else [])
                    ++ [EvIsDir s]))
  end.
Proof.
  unfold stage_submission, bind, query. simpl.
  destruct (path_resolve ext (world st) submission) as [s|e]; [|done].
  simpl. destruct (path_is_file ext (world st) s); simpl.
  - destruct (zipfile_is_zipfile ext (world st) s); simpl.
    + unfold call. simpl.
      destruct (tempfile_mkdtemp ext (world st)) as [[dir|e] w1]; simpl.
      * destruct (zipfile_extractall ext s dir w1) as [[[]|e] w2]; simpl;
          repeat rewrite <- app_assoc; done.
      * repeat rewrite <- app_assoc; done.
    + destruct (path_is_dir ext (world st) s); simpl;
        unfold raise, ret, logged, log; simpl; repeat rewrite <- app_assoc; done.
  - destruct (path_is_dir ext (world st) s); simpl;
      unfold raise, ret, logged, log; simpl; repeat rewrite <- app_assoc; done.
Qed.

(** ** Rules for [emits] and [logs] *)

Lemma logs_mono {A} (Q Q' : list Ev -> Prop) (m : M A) :
  (forall tr, Q tr -> Q' tr) -> logs Q m -> logs Q' m.
Proof. intros HQ Hm st. destruct (Hm st) as (tr & E & H). eauto. Qed.

Lemma emits_mono {A} (P P' : Ev -> Prop) (m : M A) :
  (forall ev, P ev -> P' ev) -> emits P m -> emits P' m.
Proof.
  intros HP Hm st. destruct (Hm st) as (tr & E & H).
  exists tr. split; [done|]. eapply Forall_impl; eauto.
Qed.

Lemma emits_logs {A} (P : Ev -> Prop) (m : M A) : emits P m -> logs (Forall P) m.
Proof. intros H. exact H. Qed.

Lemma emits_silent {A} (P : Ev -> Prop) (m : M A) :
  (forall st, trace (m st).2 = trace st) -> emits P m.
Proof. intros H st. exists []. rewrite app_nil_r. split; [apply H | constructor]. Qed.

Lemma emits_ret {A} (P : Ev -> Prop) (a : A) : emits P (ret a : M A).
Proof. by apply emits_silent. Qed.

Lemma emits_raise {A} (P : Ev -> Prop) (e : exn) : emits P (raise e : M A).
Proof. by apply emits_silent. Qed.

Lemma emits_lift {A} (P : Ev -> Prop) (r : Res A) : emits P (lift r : M A).
Proof. by apply emits_silent. Qed.

Lemma emits_print (P : Ev -> Prop) (line : string) : emits P (print line : M unit).
Proof. by apply emits_silent. Qed.

Lemma emits_one {A} (P : Ev -> Prop) (m : M A) (ev : Ev) :
  P ev -> (forall st, trace (m st).2 = trace st ++ [ev]) -> emits P m.
Proof. intros HP H st. exists [ev]. split; [apply H | by constructor]. Qed.

Lemma emits_query {A} (P : Ev -> Prop) (ev : Ev) (f : World -> Res A) :
  P ev -> emits P (query ev f).
Proof. intros HP. by apply emits_one with ev. Qed.

Lemma emits_pure_call {A} (P : Ev -> Prop) (ev : Ev) (r : Res A) :
  P ev -> emits P (pure_call ev r : M A).
Proof. intros HP. by apply emits_one with ev. Qed.

Lemma emits_call {A} (P : Ev -> Prop) (ev : Ev) (f : World -> Res A * World) :
  P ev -> emits P (call ev f).
Proof.
  intros HP. apply emits_one with ev; [done|].
  intros st. unfold call. by destruct (f (world st)).
Qed.

Lemma logs_bind {A B} (Q1 Q2 : list Ev -> Prop) (m : M A) (k : A -> M B) :
  logs Q1 m -> (forall a, logs Q2 (k a)) -> Q2 [] ->
  logs (fun tr => exists t1 t2, tr = t1 ++ t2 /\ Q1 t1 /\ Q2 t2) (bind m k).
Proof.
  intros Hm Hk Hnil st. destruct (Hm st) as (t1 & E1 & H1).
  unfold bind. destruct (m st) as [[a|e] st1]; simpl in *.
  - destruct (Hk a st1) as (t2 & E2 & H2).
    exists (t1 ++ t2). rewrite E2, E1, app_assoc. eauto 6.
  - exists t1. split; [done|]. exists t1, []. by rewrite app_nil_r.
Qed.

Lemma emits_bind {A B} (P : Ev -> Prop) (m : M A) (k : A -> M B) :
  emits P m -> (forall a, emits P (k a)) -> emits P (bind m k).
Proof.
  intros Hm Hk. eapply logs_mono; [|apply (logs_bind _ _ _ _ Hm Hk); constructor].
  intros tr (t1 & t2 & -> & H1 & H2). by apply Forall_app.
Qed.

Lemma emits_bind_lift {A B} (P : Ev -> Prop) (r : Res A) (k : A -> M B) :
  (forall a, r = Ok a -> emits P (k a)) -> emits P (bind (lift r) k).
Proof.
  intros Hk. destruct r as [a|e].
  - intros st. apply (Hk a eq_refl).
  - by apply emits_silent.
Qed.

Lemma emits_for_each {X} (P : Ev -> Prop) (l : list X) (body : X -> M unit) :
  (forall x, x ∈ l -> emits P (body x)) -> emits P (for_each l body).
Proof.
  induction l as [|x l IH]; intros H; simpl.
  - apply emits_ret.
  - apply emits_bind.
    + apply H. by left.
    + intros _. apply IH. intros y Hy. apply H. by right.
Qed.

Lemma emits_write_score (P : Ev -> Prop) (df : DataFrame) (p : Path) :
  P (EvToCsv df p score_kwargs) -> emits P (write_score ext df p).
Proof. intros HP. by apply emits_call. Qed.

(** ** What the four drivers log *)

Lemma eval_lexical_emits (d s o : Path) (kinds : list string) :
  emits (lexical_step d s o kinds) (eval_lexical ext d (PPath s) o kinds).
Proof.
  unfold eval_lexical. apply emits_for_each. intros kind Hkind.
  apply emits_bind; [apply emits_print|intros _].
  apply emits_bind_lift. intros sub [= <-].
  apply emits_bind.
  { apply emits_call. exists kind. split; [done|]. by left. }
  intros [[by_pair by_frequency] by_length].
  apply emits_bind; [|intros _; apply emits_bind; [|intros _]];
    apply emits_write_score; exists kind; (split; [done|]); right.
  - exists by_pair, "by_pair". split; [set_solver|reflexivity].
  - exists by_frequency, "by_frequency". split; [set_solver|reflexivity].
  - exists by_length, "by_length". split; [set_solver|reflexivity].
Qed.

Lemma eval_syntactic_emits (d s o : Path) (kinds : list string) :
  emits (syntactic_step d s o kinds) (eval_syntactic ext d (PPath s) o kinds).
Proof.
  unfold eval_syntactic. apply emits_for_each. intros kind Hkind.
  apply emits_bind; [apply emits_print|intros _].
  apply emits_bind_lift. intros sub [= <-].
  apply emits_bind.
  { apply emits_call. exists kind. split; [done|]. by left. }
  intros [by_pair by_type].
  apply emits_bind; [|intros _];
    apply emits_write_score; exists kind; (split; [done|]); right.
  - exists by_pair, "by_pair". split; [set_solver|reflexivity].
  - exists by_type, "by_type". split; [set_solver|reflexivity].
Qed.

Lemma eval_phonetic_emits (d s o : Path) (kinds : list string) :
  emits (phonetic_step d s o kinds) (eval_phonetic ext d (PPath s) o kinds).
Proof.
  unfold eval_phonetic. apply emits_for_each. intros kind Hkind.
  apply emits_bind; [apply emits_print|intros _].
  apply emits_bind_lift. intros sub [= <-].
  apply emits_call. by exists kind.
Qed.

Lemma eval_semantic_emits (d s o : Path) (kinds : list string) :
  emits (semantic_step d s o kinds) (eval_semantic ext d (PPath s) o kinds).
Proof.
  unfold eval_semantic.
  apply emits_bind_lift. intros meta_file [= <-].
  apply emits_bind; [apply emits_query; by left|intros text].
  apply emits_bind; [apply emits_pure_call; right; left; by exists text|intros meta].
  do 6 (apply emits_bind; [apply emits_lift|intros ?]).
  apply emits_for_each. intros kind Hkind.
  apply emits_bind; [apply emits_print|intros _].
  apply emits_bind_lift. intros sub [= <-].
  apply emits_bind; [|intros score].
  - apply emits_call. right; right. exists kind. split; [done|]. left. eauto.
  - apply emits_write_score. right; right. exists kind. split; [done|]. right. eauto.
Qed.

(** With an unzipped submission, which is a [str], no driver gets as far as
    a call to the outside. *)
Lemma eval_lexical_str (d : Path) (dir : string) (o : Path) (kinds : list string) :
  emits (fun _ => False) (eval_lexical ext d (PStr dir) o kinds).
Proof.
  unfold eval_lexical. apply emits_for_each. intros kind _.
  apply emits_bind; [apply emits_print|intros _].
  apply emits_bind_lift. intros sub [=].
Qed.

Lemma eval_semantic_str (d : Path) (dir : string) (o : Path) (kinds : list string) :
  emits (fun _ => False) (eval_semantic ext d (PStr dir) o kinds).
Proof. unfold eval_semantic. apply emits_bind_lift. intros sub [=]. Qed.

Lemma eval_syntactic_str (d : Path) (dir : string) (o : Path) (kinds : list string) :
  emits (fun _ => False) (eval_syntactic ext d (PStr dir) o kinds).
Proof.
  unfold eval_syntactic. apply emits_for_each. intros kind _.
  apply emits_bind; [apply emits_print|intros _].
  apply emits_bind_lift. intros sub [=].
Qed.

Lemma eval_phonetic_str (d : Path) (dir : string) (o : Path) (kinds : list string) :
  emits (fun _ => False) (eval_phonetic ext d (PStr dir) o kinds).
Proof.
  unfold eval_phonetic. apply emits_for_each. intros kind _.
  apply emits_bind; [apply emits_print|intros _].
  apply emits_bind_lift. intros sub [=].
Qed.

(** ** Rules for [quiet] *)

Lemma quiet_bind {A B} (m : M A) (k : A -> M B) :
  quiet m -> (forall a, quiet (k a)) -> quiet (bind m k).
Proof.
  intros Hm Hk st. destruct (Hm st) as [E1 E2].
  unfold bind. destruct (m st) as [[a|e] st1]; simpl in *; [|done].
  destruct (Hk a st1) as [F1 F2]. split; congruence.
Qed.

Lemma quiet_for_each {X} (l : list X) (body : X -> M unit) :
  (forall x, quiet (body x)) -> quiet (for_each l body).
Proof.
  intros H. induction l as [|x l IH]; simpl; [done|].
  apply quiet_bind; [apply H|done].
Qed.

Lemma quiet_call {A} (ev : Ev) (f : World -> Res A * World) : quiet (call ev f).
Proof. intros st. unfold call. by destruct (f (world st)). Qed.

Lemma quiet_write_score (df : DataFrame) (p : Path) : quiet (write_score ext df p).
Proof. apply quiet_call. Qed.

Lemma eval_lexical_quiet d s o kinds : quiet (eval_lexical ext d s o kinds).
Proof.
  unfold eval_lexical. apply quiet_for_each. intros kind.
  apply quiet_bind; [done|intros _].
  apply quiet_bind; [done|intros sub].
  apply quiet_bind; [apply quiet_call|intros [[? ?] ?]].
  repeat (apply quiet_bind; [apply quiet_write_score|intros _]).
  apply quiet_write_score.
Qed.

Lemma eval_semantic_quiet d s o kinds : quiet (eval_semantic ext d s o kinds).
Proof.
  unfold eval_semantic. do 9 (apply quiet_bind; [done|intros ?]).
  apply quiet_for_each. intros kind.
  apply quiet_bind; [done|intros _].
  apply quiet_bind; [done|intros sub].
  apply quiet_bind; [apply quiet_call|intros ?]. apply quiet_write_score.
Qed.

Lemma eval_syntactic_quiet d s o kinds : quiet (eval_syntactic ext d s o kinds).
Proof.
  unfold eval_syntactic. apply quiet_for_each. intros kind.
  apply quiet_bind; [done|intros _].
  apply quiet_bind; [done|intros sub].
  apply quiet_bind; [apply quiet_call|intros [? ?]].
  apply quiet_bind; [apply quiet_write_score|intros _].
  apply quiet_write_score.
Qed.

Lemma eval_phonetic_quiet d s o kinds : quiet (eval_phonetic ext d s o kinds).
Proof.
  unfold eval_phonetic. apply quiet_for_each. intros kind.
  apply quiet_bind; [done|intros _].
  apply quiet_bind; [done|intros sub]. apply quiet_call.
Qed.

Lemma run_tracks_quiet d s o kinds flags : quiet (run_tracks ext d s o kinds flags).
Proof.
  unfold run_tracks.
  apply quiet_bind; [destruct (no_lexical flags); simpl;
                     [done|apply eval_lexical_quiet]|intros _].
  apply quiet_bind; [destruct (no_semantic flags); simpl;
                     [done|apply eval_semantic_quiet]|intros _].
  apply quiet_bind; [destruct (no_syntactic flags); simpl;
                     [done|apply eval_syntactic_quiet]|intros _].
  destruct (no_phonetic flags); simpl; [done|apply eval_phonetic_quiet].
Qed.

(** ** Phases *)

Lemma in_phases_nil (phases : list (Ev -> Prop)) : in_phases phases [].
Proof. induction phases as [|P ps IH]; simpl; [done|]. by exists [], []. Qed.


Lemma in_phases_all (P : Ev -> Prop) (ps : list (Ev -> Prop)) (tr : list Ev) :
  in_phases ps tr -> (forall Q, Q ∈ ps -> forall ev, Q ev -> P ev) -> Forall P tr.
Proof.
  revert tr. induction ps as [|Q ps IH]; simpl; intros tr H HP.
  - subst. constructor.
  - destruct H as (t1 & t2 & -> & HQ & Hps). apply Forall_app. split.
    + eapply Forall_impl; [exact HQ|]. apply HP. by left.
    + apply IH; [done|]. intros Q' HQ'. apply HP. by right.
Qed.


Lemma logs_phase {A B} (P : Ev -> Prop) (ps : list (Ev -> Prop))
    (m : M A) (k : A -> M B) :
  emits P m -> (forall a, logs (in_phases ps) (k a)) ->
  logs (in_phases (P :: ps)) (bind m k).
Proof.
  intros Hm Hk. eapply logs_mono; [|apply (logs_bind _ _ _ _ Hm Hk), in_phases_nil].
  intros tr (t1 & t2 & -> & H1 & H2). simpl. eauto.
Qed.

Lemma logs_last_phase {A} (P : Ev -> Prop) (m : M A) :
  emits P m -> logs (in_phases [P]) m.
Proof.
  intros Hm. eapply logs_mono; [|exact Hm].
  intros tr H. simpl. exists tr, []. by rewrite app_nil_r.
Qed.

Lemma emits_skip (P : Ev -> Prop) (flag : bool) (m : M unit) :
  (flag = false -> emits P m) ->
  emits P (if negb flag then m else ret tt).
Proof. destruct flag; simpl; intros H; [apply emits_ret|by apply H]. Qed.

Lemma run_tracks_phases (d s o : Path) (kinds : list string) (flags : Flags) :
  logs (in_phases (track_phases flags d s o kinds))
       (run_tracks ext d (PPath s) o kinds flags).
Proof.
  unfold run_tracks, track_phases. cbn [map].
  apply logs_phase; [|intros _; apply logs_phase; [|intros _; apply logs_phase;
                     [|intros _; apply logs_last_phase]]];
    apply emits_skip; intros Hflag;
    (eapply emits_mono; [intros ev Hev; split; [exact Hflag|exact Hev]|]).
  - apply eval_lexical_emits.
  - apply eval_semantic_emits.
  - apply eval_syntactic_emits.
  - apply eval_phonetic_emits.
Qed.

Lemma run_tracks_str (d : Path) (dir : string) (o : Path)
    (kinds : list string) (flags : Flags) :
  emits (fun _ => False) (run_tracks ext d (PStr dir) o kinds flags).
Proof.
  unfold run_tracks.
  repeat (apply emits_bind; [apply emits_skip; intros _|intros _]);
    [| | |apply emits_skip; intros _].
  - apply eval_lexical_str.
  - apply eval_semantic_str.
  - apply eval_syntactic_str.
  - apply eval_phonetic_str.
Qed.

(** ** The setup steps *)

Lemma ensure_dataset_emits (gold : Path) :
  emits (resolver_event gold) (ensure_dataset ext gold).
Proof.
  unfold ensure_dataset.
  apply emits_bind; [by apply emits_query|intros d].
  apply emits_bind; [by apply emits_query|intros b].
  destruct b; simpl; [apply emits_ret|apply emits_raise].
Qed.

Lemma stage_submission_emits (submission : Path) :
  emits (stager_event submission) (stage_submission ext submission).
Proof.
  unfold stage_submission.
  apply emits_bind; [by apply emits_query|intros s].
  apply emits_bind; [by apply emits_query|intros is_file].
  apply emits_bind.
  { destruct is_file; [by apply emits_query|apply emits_ret]. }
  intros is_zip. destruct (is_file && is_zip).
  - apply emits_bind; [by apply emits_call|intros dir].
    apply emits_bind; [by apply emits_one with (EvAtexitRegister dir)|intros _].
    apply emits_bind; [apply emits_print|intros _].
    apply emits_bind; [by apply emits_call|intros _]. apply emits_ret.
  - apply emits_bind; [by apply emits_query|intros b].
    destruct b; simpl; [apply emits_ret|apply emits_raise].
Qed.

Lemma ensure_output_emits (output : Path) :
  emits (output_event output) (ensure_output ext output).
Proof.
  unfold ensure_output.
  apply emits_bind; [by apply emits_query|intros b].
  destruct b; simpl; [apply emits_ret|by apply emits_call].
Qed.

Lemma ensure_output_quiet (output : Path) : quiet (ensure_output ext output).
Proof.
  unfold ensure_output. apply quiet_bind; [done|intros b].
  destruct b; simpl; [done|apply quiet_call].
Qed.

Lemma ensure_dataset_ok (gold d : Path) (st st1 : St) :
  ensure_dataset ext gold st = (Ok d, st1) ->
  path_resolve ext (world st) gold = Ok d
  /\ path_is_dir ext (world st) d = true
  /\ st1 = logged st [EvResolve gold; EvIsDir d].
Proof.
  rewrite ensure_dataset_run.
  destruct (path_resolve ext (world st) gold) as [d'|e]; [|done].
  destruct (path_is_dir ext (world st) d') eqn:Hdir; [|done].
  by intros [= <- <-].
Qed.

Lemma stage_submission_dir (submission s : Path) (st st1 : St) :
  stage_submission ext submission st = (Ok (PPath s), st1) ->
  path_resolve ext (world st) submission = Ok s
  /\ path_is_dir ext (world st) s = true
  /\ exists tr, st1 = logged st tr.
Proof.
  rewrite stage_submission_run.
  destruct (path_resolve ext (world st) submission) as [s'|e]; [|done].
  destruct (path_is_file ext (world st) s' && zipfile_is_zipfile ext (world st) s').
  - destruct (tempfile_mkdtemp ext (world st)) as [[dir|e] w1]; [|done].
    by destruct (zipfile_extractall ext s' dir w1) as [[[]|e] w2].
  - destruct (path_is_dir ext (world st) s') eqn:Hdir; [|done].
    intros [= <- <-]. eauto.
Qed.

(** ** The body, step by step *)

Lemma evaluate_body_run (dataset submission output : Path) (flags : Flags) (st : St) :
  evaluate_body ext dataset submission output flags st =
  match ensure_dataset ext (resolve_kinds (environ st) dataset).2 st with
  | (Raise e, st1) => (Raise e, st1)
  | (Ok d, st1) =>
      match stage_submission ext submission st1 with
      | (Raise e, st2) => (Raise e, st2)
      | (Ok s, st2) =>
          match ensure_output ext output st2 with
          | (Raise e, st3) => (Raise e, st3)
          | (Ok _, st3) =>
              run_tracks ext d s output
                         (resolve_kinds (environ st) dataset).1 flags st3
          end
      end
  end.
Proof.
  unfold evaluate_body, bind, get_environ. simpl.
  destruct (resolve_kinds (environ st) dataset) as [kinds gold]. simpl.
  destruct (ensure_dataset ext gold st) as [[d|e] st1]; [|done].
  destruct (stage_submission ext submission st1) as [[s|e] st2]; [|done].
  by destruct (ensure_output ext output st2) as [[[]|e] st3].
Qed.

(** The shape of every run of the body: the setup events, in their three
    phases and starting with the resolution of the gold root; then, only
    if the gold root and the submission both resolved to directories, the
    events of the enabled tracks in their phases. *)
Lemma evaluate_body_shape (dataset submission output : Path) (flags : Flags) (st : St) :
  let kinds := (resolve_kinds (environ st) dataset).1 in
  let gold := (resolve_kinds (environ st) dataset).2 in
  let st' := (evaluate_body ext dataset submission output flags st).2 in
  exists pre tr,
    trace st' = trace st ++ pre ++ tr
    /\ in_phases (setup_phases gold submission output) pre
    /\ (exists rest, pre = EvResolve gold :: rest)
    /\ (tr = [] \/
        exists d s,
          path_resolve ext (world st) gold = Ok d
          /\ path_is_dir ext (world st) d = true
          /\ path_resolve ext (world st) submission = Ok s
          /\ path_is_dir ext (world st) s = true
          /\ atexit st' = atexit st
          /\ in_phases (track_phases flags d s output kinds) tr).
Proof.
  intros kinds gold st'. subst st'. rewrite evaluate_body_run. fold gold kinds.
  destruct (ensure_dataset_emits gold st) as (t1 & T1 & F1).
  assert (exists rest, t1 = EvResolve gold :: rest) as [rest1 Hrest1].
  { revert T1. rewrite ensure_dataset_run.
    destruct (path_resolve ext (world st) gold) as [d|e]; [|simpl];
      [destruct (path_is_dir ext (world st) d); simpl|];
      intros T1; apply app_inv_head in T1; subst; eauto. }
  assert (forall t2 t3, Forall (stager_event submission) t2 ->
            Forall (output_event output) t3 ->
            in_phases (setup_phases gold submission output) (t1 ++ t2 ++ t3)
            /\ exists rest, t1 ++ t2 ++ t3 = EvResolve gold :: rest) as Hsetup.
  { intros t2 t3 F2 F3. split.
    - exists t1, (t2 ++ t3). split; [done|]. split; [done|].
      exists t2, t3. split; [done|]. split; [done|].
      exists t3, []. by rewrite app_nil_r.
    - subst t1. simpl. eauto. }
  destruct (ensure_dataset ext gold st) as [[d|e] st1] eqn:E1; simpl in T1.
  2:{ exists t1, []. cbn [snd]. rewrite app_nil_r. split; [done|].
      destruct (Hsetup [] []) as [H1 H2]; [constructor..|].
      rewrite !app_nil_r in H1, H2. eauto. }
  apply ensure_dataset_ok in E1 as (Hd & Hdir & Hst1).
  destruct (stage_submission_emits submission st1) as (t2 & T2 & F2).
  destruct (stage_submission ext submission st1) as [[s|e] st2] eqn:E2; simpl in T2.
  2:{ exists (t1 ++ t2), []. cbn [snd]. rewrite app_nil_r, T2, T1, <- app_assoc.
      split; [done|].
      destruct (Hsetup t2 []) as [H1 H2]; [done|constructor|].
      rewrite !app_nil_r in H1, H2. eauto. }
  destruct (ensure_output_emits output st2) as (t3 & T3 & F3).
  destruct (ensure_output_quiet output st2) as [Q3 _].
  destruct (ensure_output ext output st2) as [[[]|e] st3] eqn:E3; simpl in T3, Q3.
  2:{ exists (t1 ++ t2 ++ t3), []. cbn [snd]. rewrite app_nil_r, T3, T2, T1, <- !app_assoc.
      split; [done|]. destruct (Hsetup t2 t3) as [H1 H2]; eauto. }
  destruct (Hsetup t2 t3) as [H1 H2]; [done..|].
  destruct (run_tracks_quiet d s output kinds flags st3) as [Q4 _].
  destruct s as [s|dir].
  - destruct (run_tracks_phases d s output kinds flags st3) as (t4 & T4 & F4).
    exists (t1 ++ t2 ++ t3), t4.
    rewrite T4, T3, T2, T1, <- !app_assoc. split; [done|].
    split; [done|]. split; [done|]. right. exists d, s.
    apply stage_submission_dir in E2 as (Hs & Hsdir & tr2 & Hst2).
    subst st1 st2. simpl in *. repeat split; try done. congruence.
  - destruct (run_tracks_str d dir output kinds flags st3) as (t4 & T4 & F4).
    assert (t4 = []) as -> by (destruct t4; [done|by inversion F4]).
    exists (t1 ++ t2 ++ t3), []. rewrite T4, T3, T2, T1, <- !app_assoc.
    split; [done|]. eauto.
Qed.

(** ** The handler around the body *)

Lemma evaluate_run (dataset submission output : Path) (flags : Flags) (st : St) :
  evaluate ext dataset submission output flags st =
  match evaluate_body ext dataset submission output flags st with
  | (Raise (ValueError error), st1) =>
      (Raise (SystemExit (-1)),
       mkState (world st1) (environ st1) (stdout st1 ++ ["ERROR: " +:+ error])
               (atexit st1) (trace st1))
  | other => other
  end.
Proof.
  unfold evaluate.
  by destruct (evaluate_body ext dataset submission output flags st) as [[[]|[]] st1].
Qed.

Lemma evaluate_same_effects (dataset submission output : Path) (flags : Flags) (st : St) :
  let st1 := (evaluate_body ext dataset submission output flags st).2 in
  let st' := (evaluate ext dataset submission output flags st).2 in
  trace st' = trace st1 /\ world st' = world st1 /\ atexit st' = atexit st1.
Proof.
  simpl. rewrite evaluate_run.
  by destruct (evaluate_body ext dataset submission output flags st) as [[[]|[]] st1].
Qed.

(** ** Splits and file names *)

Lemma resolve_kinds_cases (env : gmap string string) (dataset : Path) :
  match env !! TEST_GOLD with
  | None => resolve_kinds env dataset = (["dev"], dataset)
  | Some gold => resolve_kinds env dataset = (["dev"; "test"], path_of_string gold)
  end.
Proof. unfold resolve_kinds. by destruct (env !! TEST_GOLD). Qed.

Lemma kinds_dev_test (env : gmap string string) (dataset : Path) (kind : string) :
  kind ∈ (resolve_kinds env dataset).1 -> kind = "dev" \/ kind = "test".
Proof.
  pose proof (resolve_kinds_cases env dataset) as H.
  destruct (env !! TEST_GOLD); rewrite H; simpl; intros Hk;
    repeat (apply elem_of_cons in Hk as [Hk|Hk]); auto;
    by apply elem_of_nil in Hk.
Qed.

Lemma name_div (o : Path) (file : string) :
  path_of_string file = mkPath false [file] -> name (o // file) = file.
Proof.
  intros H. unfold div, name. rewrite H. simpl. apply last_last.
Qed.

Lemma count_char_app (c : ascii) (s1 s2 : string) :
  count_char c (s1 +:+ s2) = count_char c s1 + count_char c s2.
Proof.
  induction s1 as [|c' s1 IH]; simpl; [done|]. rewrite IH. lia.
Qed.

Lemma score_name_underscores (track split stratification extension : string) :
  3 <= count_char "_" (score_name track split stratification extension).
Proof.
  unfold score_name. rewrite !count_char_app. simpl. lia.
Qed.

(** ** Setup events and track events *)

Lemma setup_event_plain (gold submission output : Path) (Q : Ev -> Prop) (ev : Ev) :
  Q ∈ setup_phases gold submission output -> Q ev ->
  event_track ev = None /\ is_score_write ev = false
  /\ is_meta_read ev = false /\ is_semantic_scoring ev = false.
Proof.
  intros HQ. unfold setup_phases in HQ. elem_cases HQ; subst Q; by destruct ev.
Qed.

Lemma setup_events_plain (gold submission output : Path) (pre : list Ev) :
  in_phases (setup_phases gold submission output) pre ->
  Forall (fun ev => event_track ev = None /\ is_score_write ev = false
                    /\ is_meta_read ev = false /\ is_semantic_scoring ev = false) pre.
Proof.
  intros H. eapply in_phases_all; [exact H|].
  intros Q HQ ev. by apply (setup_event_plain gold submission output).
Qed.

Lemma no_mkdir_in_tracks (flags : Flags) (d s o : Path) (kinds tr : list _) :
  in_phases (track_phases flags d s o kinds) tr ->
  Forall (fun ev : Ev => is_mkdir ev = false /\ is_mkdtemp ev = false) tr.
Proof.
  intros H. eapply in_phases_all; [exact H|].
  intros Q HQ ev. unfold track_phases in HQ. simpl in HQ.
  elem_cases HQ; subst Q; intros [_ Hstep]; simpl in Hstep.
  - by destruct Hstep as (kind & _ & [->|(df & strat & _ & ->)]).
  - by destruct Hstep as [->|[[text ->]|(kind & _ & [(m & q & ->)|(df & ->)])]].
  - by destruct Hstep as (kind & _ & [->|(df & strat & _ & ->)]).
  - by destruct Hstep as (kind & _ & ->).
Qed.




Lemma run_tracks_no_mkdir (d : Path) (s : PathLike) (o : Path)
    (kinds : list string) (flags : Flags) :
  emits (fun ev => is_mkdir ev = false /\ is_mkdtemp ev = false)
        (run_tracks ext d s o kinds flags).
Proof.
  destruct s as [s|dir].
  - intros st. destruct (run_tracks_phases d s o kinds flags st) as (tr & E & H).
    exists tr. split; [done|]. by eapply no_mkdir_in_tracks.
  - eapply emits_mono; [|apply run_tracks_str]. done.
Qed.

Lemma stage_submission_fails_world (submission : Path) (st st2 : St) (e : exn) :
  stage_submission ext submission st = (Raise e, st2) ->
  Forall (fun ev => is_mkdtemp ev = false) (new_events st st2) ->
  world st2 = world st.
Proof.
  rewrite stage_submission_run.
  destruct (path_resolve ext (world st) submission) as [s|e']; [|by intros [= _ <-]].
  destruct (path_is_file ext (world st) s && zipfile_is_zipfile ext (world st) s).
  - assert (forall (st3 : St) tr,
               trace st3 = trace st ++ tr -> EvMkdtemp ∈ tr ->
               Forall (fun ev : Ev => is_mkdtemp ev = false) (new_events st st3) ->
               world st3 = world st) as Hno.
    { intros st3 tr E Hin HF. rewrite (new_events_app _ _ _ E) in HF.
      rewrite Forall_forall in HF. by specialize (HF _ Hin). }
    destruct (tempfile_mkdtemp ext (world st)) as [[dir|e'] w1].
    + destruct (zipfile_extractall ext s dir w1) as [[[]|e'] w2]; [done|].
      intros [= _ <-]. eapply Hno; [reflexivity|]. set_solver.
    + intros [= _ <-]. eapply Hno; [reflexivity|]. set_solver.
  - destruct (path_is_dir ext (world st) s); [done|]. by intros [= _ <-].
Qed.


(** ** Inversion of successful steps *)

Lemma bind_ok {A B} (m : M A) (k : A -> M B) (st st' : St) (b : B) :
  bind m k st = (Ok b, st') ->
  exists a st1, m st = (Ok a, st1) /\ k a st1 = (Ok b, st').
Proof.
  unfold bind. destruct (m st) as [[a|e] st1]; [|done]. eauto.
Qed.

Lemma call_ok {A} (ev : Ev) (f : World -> Res A * World) (st st' : St) (a : A) :
  call ev f st = (Ok a, st') ->
  exists w, f (world st) = (Ok a, w)
            /\ st' = mkState w (environ st) (stdout st) (atexit st)
                              (trace st ++ [ev]).
Proof.
  unfold call. destruct (f (world st)) as [r w]. intros [= -> <-]. eauto.
Qed.


(** ** Paths built by the drivers *)

Lemma div_simple (p : Path) (c : string) :
  path_of_string c = mkPath false [c] ->
  p // c = mkPath (absolute p) (parts p ++ [c]).
Proof. intros H. unfold div. by rewrite H. Qed.

Lemma below_start (root : Path) (c : string) :
  path_of_string c = mkPath false [c] -> below root c (root // c).
Proof. intros H. exists []. by apply div_simple. Qed.

Lemma below_div (root : Path) (component : string) (p : Path) (c : string) :
  path_of_string c = mkPath false [c] ->
  below root component p -> below root component (p // c).
Proof.
  intros H [rest ->]. exists (rest ++ [c]).
  rewrite (div_simple _ _ H). simpl. by rewrite <- app_assoc.
Qed.

(** Splits a hypothesis [track_step t d s o kinds ev] into its concrete
    events, given that the splits are [dev] or [test]. *)
Ltac split_step t Hstep Hkinds :=
  let kind := fresh "kind" in
  let Hkind := fresh "Hkind" in
  let strat := fresh "strat" in
  let Hstrat := fresh "Hstrat" in
  destruct t; cbn [track_step] in Hstep;
  [ destruct Hstep as (kind & Hkind & ->)
  | destruct Hstep as (kind & Hkind & [->|(? & strat & Hstrat & ->)])
  | destruct Hstep as (kind & Hkind & [->|(? & strat & Hstrat & ->)])
  | destruct Hstep as [->|[[? ->]|(kind & Hkind & [(? & ? & ->)|(? & ->)])]] ];
  try (destruct (Hkinds _ Hkind) as [->| ->]);
  try (elem_cases Hstrat; subst strat).

Ltac simple_name := vm_compute; reflexivity.

Ltac solve_below :=
  repeat first [ apply below_start; simple_name
               | apply below_div; [simple_name|] ].

Lemma in_score_file_names (kinds : list string) (kind file : string) :
  kind ∈ kinds ->
  In file [ score_name "lexical" kind "by_pair" "csv";
            score_name "lexical" kind "by_frequency" "csv";
            score_name "lexical" kind "by_length" "csv";
            score_name "syntactic" kind "by_pair" "csv";
            score_name "syntactic" kind "by_type" "csv";
            "score_semantic_" +:+ kind +:+ ".csv" ] ->
  file ∈ score_file_names kinds.
Proof.
  intros Hkind Hfile. apply list_elem_of_In, in_flat_map.
  exists kind. split; [by apply list_elem_of_In|done].
Qed.

Lemma track_step_facts (t : Track) (d s o : Path) (kinds : list string) (ev : Ev) :
  (forall kind, kind ∈ kinds -> kind = "dev" \/ kind = "test") ->
  track_step t d s o kinds ev ->
  csv_as_written o kinds ev
  /\ (forall t', t' <> t -> foreign_to t' ev)
  /\ in_own_tree d s ev
  /\ track_event t ev
  /\ (t <> Semantic -> not_semantic ev)
  /\ is_mkdir ev = false.
Proof.
  intros Hkinds Hstep.
  split_step t Hstep Hkinds;
    (split; [|split; [|split; [|split; [|split]]]]);
    try reflexivity; try exact I; try done.
  (* csv_as_written *)
  all: try (match goal with
            | |- csv_as_written _ _ (EvToCsv _ (_ // ?file) _) =>
                split; [|done]; exists file;
                split; [eapply in_score_file_names; [eassumption|];
                        vm_compute; tauto|];
                split; [reflexivity|apply name_div; simple_name]
            end).
  (* foreign_to *)
  all: try (match goal with
            | |- forall t', _ -> foreign_to t' _ =>
                intros t' Hne; destruct t'; try done;
                cbn [foreign_to track_name];
                rewrite name_div by simple_name; reflexivity
            end).
  (* in_own_tree *)
  all: try (match goal with
            | |- in_own_tree _ _ _ =>
                intros t0 [= <-]; cbn [gold_paths submitted_paths track_name];
                split; repeat constructor; solve_below
            end).
  (* track_event *)
  all: try (match goal with
            | |- track_event _ _ =>
                cbn [track_event lexical_event semantic_event syntactic_event];
                rewrite name_div by simple_name; reflexivity
            end).
  (* not_semantic *)
  all: try (match goal with
            | |- _ -> not_semantic _ =>
                intros _; split; [done|];
                cbn [is_semantic_scoring];
                rewrite name_div by simple_name; reflexivity
            end).
Qed.


(** ** Every event of a run *)

(** A property of events that holds of the setup events and of the events
    of the enabled tracks holds of every event of a run. *)
Lemma run_events_all (P : Path -> Path -> Ev -> Prop)
    (dataset submission output : Path) (flags : Flags) (st : St) :
  let kinds := (resolve_kinds (environ st) dataset).1 in
  let gold := (resolve_kinds (environ st) dataset).2 in
  (forall d s Q ev, Q ∈ setup_phases gold submission output -> Q ev -> P d s ev) ->
  (forall d s t ev,
      path_resolve ext (world st) gold = Ok d ->
      path_resolve ext (world st) submission = Ok s ->
      skipped flags t = false ->
      track_step t d s output kinds ev -> P d s ev) ->
  exists d s,
    Forall (P d s)
           (new_events st (evaluate ext dataset submission output flags st).2).
Proof.
  intros kinds gold Hsetup Htrack.
  destruct (evaluate_same_effects dataset submission output flags st) as [Et _].
  destruct (evaluate_body_shape dataset submission output flags st)
    as (pre & tr & Etr & Hpre & _ & Htr).
  cbn zeta in Et, Etr, Hpre, Htr. fold gold kinds in Hpre, Htr.
  rewrite <- Et in Etr. rewrite (new_events_app _ _ _ Etr).
  destruct Htr as [->|(d & s & Hd & _ & Hs & _ & _ & Htr)].
  - exists gold, submission. rewrite app_nil_r.
    eapply in_phases_all; [exact Hpre|]. intros Q HQ ev. by apply Hsetup.
  - exists d, s. apply Forall_app. split.
    + eapply in_phases_all; [exact Hpre|]. intros Q HQ ev. by apply Hsetup.
    + eapply in_phases_all; [exact Htr|]. intros Q HQ ev.
      unfold track_phases in HQ. cbn [map] in HQ.
      elem_cases HQ; subst Q; intros [Hflag Hstep]; by eapply Htrack.
Qed.


(** ** The semantic driver, step by step *)

Lemma bind_lift {A B} (r : Res A) (k : A -> M B) (st : St) :
  bind (lift r) k st = match r with Ok a => k a st | Raise e => (Raise e, st) end.
Proof. by destruct r. Qed.

Lemma bind_query {A B} (ev : Ev) (f : World -> Res A) (k : A -> M B) (st : St) :
  bind (query ev f) k st
  = match f (world st) with
    | Ok a => k a (logged st [ev])
    | Raise e => (Raise e, logged st [ev])
    end.
Proof. unfold bind, query. by destruct (f (world st)). Qed.

Lemma bind_pure_call {A B} (ev : Ev) (r : Res A) (k : A -> M B) (st : St) :
  bind (pure_call ev r) k st
  = match r with
    | Ok a => k a (logged st [ev])
    | Raise e => (Raise e, logged st [ev])
    end.
Proof. unfold bind, pure_call. by destruct r. Qed.

(** The loop of the semantic driver, for the parameters [metric] and
    [pooling]: it reads no metadata and scores with these two values. *)
Lemma semantic_loop_emits (d : Path) (submission : PathLike) (o : Path)
    (kinds : list string) (metric pooling : pyobj) :
  emits (fun ev => is_meta_read ev = false
                   /\ forall g p s m q,
                        ev = EvSemantic g p s m q -> m = metric /\ q = pooling)
    (for_each kinds (fun kind =>
       print ("Evaluating semantic " +:+ kind +:+ " (metric=" +:+ py_str ext metric
              +:+ ", pooling=" +:+ py_str ext pooling +:+ ")...") ;;;
       let gold_file := d // "semantic" // kind // "gold.csv" in
       let pairs_file := d // "semantic" // kind // "pairs.csv" in
       sub_semantic <- lift (truediv submission "semantic") ;;
       let sub_kind := sub_semantic // kind in
       score <- call (EvSemantic gold_file pairs_file sub_kind metric pooling)
                     (semantic_evaluate ext gold_file pairs_file sub_kind
                                        metric pooling) ;;
       write_score ext score (o // ("score_semantic_" +:+ kind +:+ ".csv")))).
Proof.
  apply emits_for_each. intros kind _.
  apply emits_bind; [apply emits_print|intros _].
  apply emits_bind; [apply emits_lift|intros sub].
  apply emits_bind; [|intros score].
  - apply emits_call. split; [done|]. by intros g p s m q [= _ _ _ <- <-].
  - apply emits_write_score. split; [done|]. by intros g p s m q [=].
Qed.

Lemma eval_semantic_reads_meta_first (d : Path) (submission : PathLike) (o : Path)
    (kinds : list string) :
  logs reads_meta_first (eval_semantic ext d submission o kinds).
Proof.
  intros st. unfold eval_semantic. rewrite bind_lift.
  destruct (truediv submission "meta.yaml") as [f|e].
  2:{ exists []. rewrite app_nil_r. split; [done|by left]. }
  rewrite bind_query. destruct (path_read_text ext (world st) f) as [text|e].
  2:{ exists [EvReadText f]. split; [done|]. right; left. eauto. }
  rewrite bind_pure_call.
  assert (forall (m : M unit),
             emits (fun ev => is_meta_read ev = false) m ->
             exists tr,
               trace (m (logged (logged st [EvReadText f]) [EvYamlLoad text])).2
               = trace st ++ tr /\ reads_meta_first tr) as Htail.
  { intros m Hm. destruct (Hm (logged (logged st [EvReadText f]) [EvYamlLoad text]))
      as (rest & E & F).
    exists (EvReadText f :: EvYamlLoad text :: rest). split.
    - rewrite E. cbn. by rewrite <- !app_assoc.
    - right; right. eauto. }
  destruct (yaml_safe_load ext text) as [meta|e].
  2:{ apply (Htail (raise e)), emits_raise. }
  apply Htail.
  do 6 (apply emits_bind; [apply emits_lift|intros ?]).
  eapply emits_mono; [|apply semantic_loop_emits]. by intros ev [? _].
Qed.

Lemma track_not_semantic (t : Track) (d : Path) (submission : PathLike) (o : Path)
    (kinds : list string) (m : M unit) :
  t <> Semantic ->
  (forall kind, kind ∈ kinds -> kind = "dev" \/ kind = "test") ->
  (forall s, submission = PPath s -> emits (track_step t d s o kinds) m) ->
  (forall dir, submission = PStr dir -> emits (fun _ => False) m) ->
  emits not_semantic m.
Proof.
  intros Ht Hkinds Hpath Hstr. destruct submission as [s|dir].
  - eapply emits_mono; [|by apply Hpath]. intros ev Hstep.
    by eapply track_step_facts.
  - eapply emits_mono; [|by eapply Hstr]. done.
Qed.


Lemma run_tracks_semantic_split (d : Path) (s : PathLike) (o : Path)
    (kinds : list string) (flags : Flags) :
  (forall kind, kind ∈ kinds -> kind = "dev" \/ kind = "test") ->
  logs (fun tr => exists before sem after,
                    tr = before ++ sem ++ after
                    /\ Forall not_semantic before
                    /\ reads_meta_first sem
                    /\ Forall not_semantic after)
       (run_tracks ext d s o kinds flags).
Proof.
  intros Hkinds. unfold run_tracks.
  eapply logs_mono;
    [|apply logs_bind with
        (Q1 := Forall not_semantic)
        (Q2 := fun tr => exists sem after,
                           tr = sem ++ after /\ reads_meta_first sem
                           /\ Forall not_semantic after)].
  - intros tr (t1 & t2 & -> & H1 & t3 & t4 & -> & H3 & H4). by exists t1, t3, t4.
  - apply emits_skip. intros _.
    apply (track_not_semantic Lexical d s o kinds); [done|done| |].
    + intros p ->. apply eval_lexical_emits.
    + intros dir ->. apply eval_lexical_str.
  - intros _. apply logs_bind.
    + destruct (no_semantic flags); cbn [negb].
      * intros st. exists []. rewrite app_nil_r. split; [done|by left].
      * apply eval_semantic_reads_meta_first.
    + intros _. apply emits_bind; [|intros _]; apply emits_skip; intros _.
      * apply (track_not_semantic Syntactic d s o kinds); [done|done| |].
        -- intros p ->. apply eval_syntactic_emits.
        -- intros dir ->. apply eval_syntactic_str.
      * apply (track_not_semantic Phonetic d s o kinds); [done|done| |].
        -- intros p ->. apply eval_phonetic_emits.
        -- intros dir ->. apply eval_phonetic_str.
    + constructor.
  - exists [], []. split; [done|]. split; [by left|constructor].
Qed.


(** ** An unzipped submission

    Line 133 leaves the [str] returned by [mkdtemp] in [submission]; the
    first enabled driver then fails on [submission / ...]. *)
Lemma run_tracks_unzipped (d : Path) (dir : string) (o : Path)
    (kind : string) (kinds : list string) (flags : Flags) (st : St) :
  (exists t, skipped flags t = false) ->
  (run_tracks ext d (PStr dir) o (kind :: kinds) flags st).1
  = Raise (TypeError "unsupported operand type(s) for /: 'str' and 'str'").
Proof.
  intros [t Ht]. unfold run_tracks.
  destruct flags as [[] [] [] []]; destruct t; try discriminate Ht; reflexivity.
Qed.


(** ** The claims *)

(** C9: when [ZEROSPEECH2021_TEST_GOLD] is set, the positional dataset
    argument has no effect on the run: two runs that differ only in that
    argument, from the same state, end with the same result, the same
    output, the same trace of calls and the same world; so do the two
    processes.  The argument is replaced by the override before anything
    is asked about it. *)
Theorem C9_dataset_argument_ignored_under_override
    (dataset1 dataset2 submission output : Path) (flags : Flags) (st : St)
    (gold : string) :
  environ st !! TEST_GOLD = Some gold ->
  evaluate ext dataset1 submission output flags st
  = evaluate ext dataset2 submission output flags st
  /\ main ext dataset1 submission output flags st
     = main ext dataset2 submission output flags st.
Proof.
  intros Henv.
  assert (evaluate ext dataset1 submission output flags st
          = evaluate ext dataset2 submission output flags st) as E.
  { rewrite !evaluate_run, !evaluate_body_run.
    pose proof (resolve_kinds_cases (environ st) dataset1) as H1.
    pose proof (resolve_kinds_cases (environ st) dataset2) as H2.
    rewrite Henv in H1, H2. by rewrite H1, H2. }
  split; [done|]. unfold main. by rewrite E.
Qed.

(** C1: if [ZEROSPEECH2021_TEST_GOLD] is unset the split set is exactly
    [dev] and the gold root is the positional dataset; if it is set the
    split set is exactly [dev; test] and the gold root is the variable's
    value.  In both cases the rest of the body runs with that split set
    and with the resolution of that root: every call of a scorer in the
    run is for a split of the set and is handed gold locations below the
    resolved root. *)
Theorem C1_split_set_and_gold_root
    (dataset submission output : Path) (flags : Flags) (st : St) :
  let st' := (evaluate ext dataset submission output flags st).2 in
  let rest_of_body (root : Path) (kinds : list string) : M unit :=
    (d <- ensure_dataset ext root ;;
     s <- stage_submission ext submission ;;
     ensure_output ext output ;;;
     run_tracks ext d s output kinds flags) in
  let scored_from (root : Path) (kinds : list string) : Prop :=
    Forall (fun ev => event_track ev <> None ->
              exists d s t, path_resolve ext (world st) root = Ok d
                            /\ track_step t d s output kinds ev)
           (new_events st st') in
  match environ st !! TEST_GOLD with
  | None =>
      resolve_kinds (environ st) dataset = (["dev"], dataset)
      /\ evaluate_body ext dataset submission output flags st
         = rest_of_body dataset ["dev"] st
      /\ scored_from dataset ["dev"]
  | Some gold =>
      resolve_kinds (environ st) dataset = (["dev"; "test"], path_of_string gold)
      /\ evaluate_body ext dataset submission output flags st
         = rest_of_body (path_of_string gold) ["dev"; "test"] st
      /\ scored_from (path_of_string gold) ["dev"; "test"]
  end.
Proof.
  intros st' rest_of_body scored_from.
  assert (forall root kinds,
             resolve_kinds (environ st) dataset = (kinds, root) ->
             evaluate_body ext dataset submission output flags st
             = rest_of_body root kinds st /\ scored_from root kinds) as Hboth.
  { intros root kinds Hk. split.
    - unfold evaluate_body, rest_of_body, bind at 1, get_environ. simpl.
      by rewrite Hk.
    - unfold scored_from, st'.
      destruct (evaluate_same_effects dataset submission output flags st) as [Et _].
      destruct (evaluate_body_shape dataset submission output flags st)
        as (pre & tr & Etr & Hpre & _ & Htr).
      rewrite Hk in Hpre, Htr. cbn [fst snd] in Hpre, Htr.
      cbn zeta in Et. rewrite <- Et in Etr.
      rewrite (new_events_app _ _ _ Etr). apply Forall_app. split.
      + eapply Forall_impl.
        * apply (in_phases_all (fun ev => event_track ev = None) _ _ Hpre).
          intros Q HQ ev. unfold setup_phases in HQ. elem_cases HQ; subst Q;
            by destruct ev.
        * intros ev Hnone Hsome. by rewrite Hnone in Hsome.
      + destruct Htr as [->|(d & s & Hd & _ & _ & _ & _ & Htr)]; [constructor|].
        eapply Forall_impl.
        * apply (in_phases_all
                   (fun ev => exists t, track_step t d s output kinds ev) _ _ Htr).
          intros Q HQ ev. unfold track_phases in HQ. simpl in HQ.
          elem_cases HQ; subst Q; intros [_ Hstep]; eauto.
        * intros ev [t Hstep] _. eauto. }
  pose proof (resolve_kinds_cases (environ st) dataset) as H.
  destruct (environ st !! TEST_GOLD) as [gold|];
    (split; [exact H|]); by apply Hboth.
Qed.

(** C2, amended: with a gold root that resolves to a directory, a
    submission path that exists but is neither a directory nor a regular
    file that is a zip archive fails with the [ValueError] naming the
    resolved path; the handler prints the one [ERROR:] line and exits with
    [-1]; nothing was written and the world is as it was.  A path that
    does not exist fails earlier, in [resolve(strict=True)], with the
    exception that call raises ([FileNotFoundError]); it is not a
    [ValueError], so it passes the handler: no [ERROR:] line, and again
    nothing written. *)
Theorem C2_submission_neither_directory_nor_archive
    (dataset submission output : Path) (flags : Flags) (st : St) (d : Path) :
  path_resolve ext (world st) (resolve_kinds (environ st) dataset).2 = Ok d ->
  path_is_dir ext (world st) d = true ->
  let body := evaluate_body ext dataset submission output flags st in
  let run := evaluate ext dataset submission output flags st in
  let untouched :=
    world run.2 = world st
    /\ Forall (fun ev => is_score_write ev = false /\ is_mkdir ev = false)
              (new_events st run.2) in
  match path_resolve ext (world st) submission with
  | Ok s =>
      path_is_dir ext (world st) s = false ->
      path_is_file ext (world st) s && zipfile_is_zipfile ext (world st) s = false ->
      let message := "submssion is not a zip file or a directory: " +:+ str s in
      body.1 = Raise (ValueError message)
      /\ run.1 = Raise (SystemExit (-1))
      /\ stdout run.2 = stdout st ++ ["ERROR: " +:+ message]
      /\ (main ext dataset submission output flags st).1 = (-1)%Z
      /\ untouched
  | Raise e =>
      body.1 = Raise e
      /\ (is_ValueError e = false -> run.1 = Raise e /\ stdout run.2 = stdout st)
      /\ untouched
  end.
Proof.
  intros Hd Hdir body run untouched. subst body run untouched.
  unfold main. rewrite evaluate_run, evaluate_body_run, ensure_dataset_run, Hd, Hdir.
  rewrite stage_submission_run. cbn [world logged].
  destruct (path_resolve ext (world st) submission) as [s|e].
  - intros Hsdir Hzip. rewrite Hzip, Hsdir. cbn.
    repeat split; try done.
    erewrite new_events_app by (cbn; rewrite <- app_assoc; reflexivity).
    apply Forall_app. split; [by repeat constructor|].
    repeat constructor; destruct (path_is_file ext (world st) s); by repeat constructor.
  - cbn. split; [done|]. split.
    + by destruct e.
    + assert (Forall (fun ev : Ev => is_score_write ev = false /\ is_mkdir ev = false)
                     [EvResolve (resolve_kinds (environ st) dataset).2;
                      EvIsDir d; EvResolve submission]) as HF
        by (by repeat constructor).
      destruct e; cbn; (split; [done|]);
        by erewrite new_events_app by (cbn; rewrite <- app_assoc; reflexivity).
Qed.

(** C4: when the body raises a [ValueError], wherever it comes from, the
    handler prints the single line [ERROR: <message>] and raises
    [SystemExit(-1)]: the process exits with [-1]; no call is made and the
    world is not changed after the failure, so nothing written before is
    removed.  If a score was written before the failure, the submission
    was a directory and no staging directory is registered for removal at
    exit: the exit hooks of the process leave the world as it was at the
    failure. *)
Theorem C4_value_error_is_reported_without_rollback
    (dataset submission output : Path) (flags : Flags) (st st1 : St)
    (message : string) :
  evaluate_body ext dataset submission output flags st
  = (Raise (ValueError message), st1) ->
  evaluate ext dataset submission output flags st
  = (Raise (SystemExit (-1)),
     mkState (world st1) (environ st1) (stdout st1 ++ ["ERROR: " +:+ message])
             (atexit st1) (trace st1))
  /\ (main ext dataset submission output flags st).1 = (-1)%Z
  /\ (Exists (fun ev => is_score_write ev = true) (new_events st st1) ->
      atexit st1 = atexit st
      /\ (atexit st = [] ->
          world (main ext dataset submission output flags st).2 = world st1)).
Proof.
  intros Hbody.
  assert (evaluate ext dataset submission output flags st
          = (Raise (SystemExit (-1)),
             mkState (world st1) (environ st1)
                     (stdout st1 ++ ["ERROR: " +:+ message])
                     (atexit st1) (trace st1))) as Hrun
    by (by rewrite evaluate_run, Hbody).
  split; [done|]. split; [unfold main; by rewrite Hrun|].
  intros Hwrite.
  assert (atexit st1 = atexit st) as Hatexit.
  { destruct (evaluate_body_shape dataset submission output flags st)
      as (pre & tr & Etr & Hpre & _ & Htr).
    rewrite Hbody in Etr, Htr. cbn [snd] in Etr, Htr.
    rewrite (new_events_app _ _ _ Etr) in Hwrite.
    apply Exists_app in Hwrite as [Hwrite|Hwrite].
    - apply setup_events_plain in Hpre. apply Exists_exists in Hwrite as (ev & Hin & Hev).
      rewrite Forall_forall in Hpre. destruct (Hpre ev Hin) as (_ & Hno & _). congruence.
    - destruct Htr as [->|(d & s & _ & _ & _ & _ & Hat & _)]; [|done].
      by apply Exists_nil in Hwrite. }
  split; [done|]. intros Hnil. unfold main. rewrite Hrun. unfold run_atexit. cbn.
  by rewrite Hatexit, Hnil.
Qed.

(** C10: the output directory is created only after the gold root and
    the submission have been validated and staged.  No [mkdir] is issued
    while they are; if that part fails the body fails with the same
    exception, the whole run issues no [mkdir], and, unless the failure
    came after a staging directory was made for an archive, the world is
    unchanged, so that an output directory that did not exist still does
    not.  If it succeeds, the next call is the test of the output
    directory, followed by the one [mkdir] of the run exactly when the test
    says the directory is missing. *)
Theorem C10_output_directory_created_after_validation
    (dataset submission output : Path) (flags : Flags) (st : St) :
  let gold := (resolve_kinds (environ st) dataset).2 in
  let staging :=
    (d <- ensure_dataset ext gold ;; stage_submission ext submission) st in
  let st' := (evaluate ext dataset submission output flags st).2 in
  let no_mkdir := Forall (fun ev : Ev => is_mkdir ev = false) in
  no_mkdir (new_events st staging.2)
  /\ match staging.1 with
     | Raise e =>
         evaluate_body ext dataset submission output flags st = (Raise e, staging.2)
         /\ no_mkdir (new_events st st')
         /\ (Forall (fun ev => is_mkdtemp ev = false) (new_events st st') ->
             world st' = world st
             /\ path_is_dir ext (world st') output = path_is_dir ext (world st) output)
     | Ok s =>
         exists rest,
           new_events st st' = new_events st staging.2 ++ EvIsDir output :: rest
           /\ if path_is_dir ext (world staging.2) output
              then no_mkdir rest
              else exists rest', rest = EvMkdir output :: rest' /\ no_mkdir rest'
     end.
Proof.
  intros gold staging st' no_mkdir.
  destruct (evaluate_same_effects dataset submission output flags st) as (Et & Ew & _).
  cbn zeta in Et, Ew. fold st' in Et, Ew.
  assert (new_events st st'
          = new_events st (evaluate_body ext dataset submission output flags st).2)
    as Hnew by (unfold new_events; by rewrite Et).
  rewrite Hnew, Ew. clear Hnew Et Ew st'.
  rewrite evaluate_body_run. fold gold.
  assert (staging = match ensure_dataset ext gold st with
                    | (Ok d, st1) => stage_submission ext submission st1
                    | (Raise e, st1) => (Raise e, st1)
                    end) as -> by reflexivity.
  destruct (ensure_dataset_emits gold st) as (t1 & T1 & F1).
  assert (no_mkdir t1) as N1.
  { eapply Forall_impl; [exact F1|]. intros ev Hev; by destruct ev. }
  destruct (ensure_dataset ext gold st) as [[d|e] st1] eqn:E1; cbn [fst snd] in *.
  2:{ rewrite (new_events_app _ _ _ T1). split; [done|]. split; [done|].
      split; [done|]. intros _. revert E1. rewrite ensure_dataset_run.
      destruct (path_resolve ext (world st) gold) as [d|e']; [|by intros [= _ <-]].
      destruct (path_is_dir ext (world st) d); [done|]. by intros [= _ <-]. }
  apply ensure_dataset_ok in E1 as (_ & _ & Hst1).
  destruct (stage_submission_emits submission st1) as (t2 & T2 & F2).
  assert (no_mkdir t2) as N2.
  { eapply Forall_impl; [exact F2|]. intros ev Hev; by destruct ev. }
  assert (world st1 = world st) as W1 by (by subst st1).
  destruct (stage_submission ext submission st1) as [[s|e] st2] eqn:E2;
    cbn [fst snd] in *.
  2:{ assert (trace st2 = trace st ++ t1 ++ t2) as T12
        by (by rewrite T2, T1, <- app_assoc).
      rewrite (new_events_app _ _ _ T12).
      split; [by apply Forall_app|]. split; [done|].
      split; [by apply Forall_app|]. intros Hno.
      apply Forall_app in Hno as [_ Hno].
      assert (world st2 = world st) as ->; [|done].
      rewrite <- W1. eapply stage_submission_fails_world; [exact E2|].
      by rewrite (new_events_app _ _ _ T2). }
  assert (trace st2 = trace st ++ t1 ++ t2) as T12
    by (by rewrite T2, T1, <- app_assoc).
  rewrite (new_events_app _ _ _ T12). split; [by apply Forall_app|].
  rewrite ensure_output_run.
  assert (forall st3 : St, exists tr,
             trace (run_tracks ext d s output
                      (resolve_kinds (environ st) dataset).1 flags st3).2
             = trace st3 ++ tr /\ no_mkdir tr) as Htracks.
  { intros st3. destruct (run_tracks_no_mkdir d s output
                            (resolve_kinds (environ st) dataset).1 flags st3)
      as (tr & E & H).
    exists tr. split; [done|]. eapply Forall_impl; [exact H|]. by intros ev [? _]. }
  destruct (path_is_dir ext (world st2) output).
  - destruct (Htracks (logged st2 [EvIsDir output])) as (tr & E & H).
    exists tr. split; [|done]. apply new_events_app.
    rewrite E. cbn. rewrite T12, <- !app_assoc. done.
  - destruct (path_mkdir ext output (world st2)) as [[[]|e] w].
    + match goal with
      | |- context [run_tracks _ _ _ _ _ _ ?st3] =>
          destruct (Htracks st3) as (tr & E & H)
      end.
      exists (EvMkdir output :: tr). split; [|eauto]. apply new_events_app.
      rewrite E. cbn. rewrite T12, <- !app_assoc. done.
    + exists [EvMkdir output]. split; [|by eexists; split; [done|constructor]].
      apply new_events_app. cbn. rewrite T12, <- !app_assoc. done.
Qed.


(** C5, amended: every table the command writes goes to the output
    directory under one of the names [score_lexical_<split>_by_pair.csv],
    [..._by_frequency.csv], [..._by_length.csv],
    [score_syntactic_<split>_by_pair.csv], [..._by_type.csv] or
    [score_semantic_<split>.csv] (the semantic track has one table per
    split and no stratification part in its file name), for a split of the
    split set; each is written with the header row (pandas' default, which
    the call leaves alone), with [float_format='%.4f'] and with
    [index=False]. *)
Theorem C5_score_files_as_written
    (dataset submission output : Path) (flags : Flags) (st : St) :
  Forall (csv_as_written output (resolve_kinds (environ st) dataset).1)
         (new_events st (evaluate ext dataset submission output flags st).2).
Proof.
  destruct (run_events_all
              (fun _ _ => csv_as_written output (resolve_kinds (environ st) dataset).1)
              dataset submission output flags st) as (_ & _ & H); [| |exact H].
  - intros _ _ Q ev HQ. unfold setup_phases in HQ.
    elem_cases HQ; subst Q; by destruct ev.
  - intros d s t ev _ _ _ Hstep.
    eapply track_step_facts; [|exact Hstep]. apply kinds_dev_test.
Qed.



(** C3: the semantic driver reads and parses [meta.yaml] at the submission
    root and looks up [parameters.semantic.metric] and
    [parameters.semantic.pooling] once, before its loop over the splits.
    If the record cannot be read or parsed, or a key is missing, the
    driver fails with that very error, having changed nothing and scored
    nothing; no default is substituted.  Otherwise its events are the one
    read, the one parse, and then scoring steps only, each scorer call
    carrying the two values looked up.  In a whole run, the events that
    read the record or score the semantic track form one block, which
    begins with the read and the parse. *)
Theorem C3_semantic_metadata_read_once_before_scoring :
  (forall (dataset : Path) (submission : PathLike) (output : Path)
          (kinds : list string) (st : St),
      let run := eval_semantic ext dataset submission output kinds st in
      match read_parameters ext (world st) submission with
      | Raise e =>
          run.1 = Raise e
          /\ world run.2 = world st
          /\ Forall (fun ev => is_meta_read ev = true /\ is_score_write ev = false)
                    (new_events st run.2)
      | Ok (metric, pooling) =>
          exists meta_file text rest,
            truediv submission "meta.yaml" = Ok meta_file
            /\ new_events st run.2
               = EvReadText meta_file :: EvYamlLoad text :: rest
            /\ Forall (fun ev =>
                         is_meta_read ev = false
                         /\ forall g p s m q,
                              ev = EvSemantic g p s m q ->
                              m = metric /\ q = pooling) rest
      end)
  /\ (forall (dataset submission output : Path) (flags : Flags) (st : St),
        exists before sem after,
          new_events st (evaluate ext dataset submission output flags st).2
          = before ++ sem ++ after
          /\ Forall not_semantic before
          /\ reads_meta_first sem
          /\ Forall not_semantic after).
Proof.
  split.
  - intros dataset submission output kinds st run. subst run.
    unfold read_parameters, eval_semantic, semantic_parameter.
    rewrite bind_lift.
    destruct (truediv submission "meta.yaml") as [f|e].
    2:{ cbn. split; [done|]. split; [done|].
        rewrite new_events_app with (tr := []); [constructor|by rewrite app_nil_r]. }
    rewrite bind_query. destruct (path_read_text ext (world st) f) as [text|e].
    2:{ cbn. split; [done|]. split; [done|].
        rewrite new_events_logged. by repeat constructor. }
    rewrite bind_pure_call, logged_logged. cbn [app].
    assert (forall e, Forall (fun ev : Ev => is_meta_read ev = true
                                             /\ is_score_write ev = false)
                        (new_events st (Raise e : Res unit,
                           logged st [EvReadText f; EvYamlLoad text]).2)) as Hfail.
    { intros e. cbn [snd]. rewrite new_events_logged. by repeat constructor. }
    destruct (yaml_safe_load ext text) as [meta|e];
      [|split; [done|split; [done|apply Hfail]]].
    rewrite bind_lift.
    destruct (getitem meta "parameters") as [parameters|e];
      [|split; [done|split; [done|apply Hfail]]].
    rewrite bind_lift.
    destruct (getitem parameters "semantic") as [semantic|e] eqn:Hsemantic;
      [|split; [done|split; [done|apply Hfail]]].
    rewrite bind_lift.
    destruct (getitem semantic "metric") as [metric|e];
      [|split; [done|split; [done|apply Hfail]]].
    rewrite bind_lift, bind_lift, Hsemantic, bind_lift.
    destruct (getitem semantic "pooling") as [pooling|e];
      [|split; [done|split; [done|apply Hfail]]].
    destruct (semantic_loop_emits dataset submission output kinds metric pooling
                (logged st [EvReadText f; EvYamlLoad text])) as (rest & E & F).
    exists f, text, rest. split; [done|]. split; [|done].
    apply new_events_app. etrans; [exact E|]. cbn. by rewrite <- app_assoc.
  - intros dataset submission output flags st.
    destruct (evaluate_same_effects dataset submission output flags st) as [Et _].
    cbn zeta in Et.
    assert (forall tr,
               trace (evaluate_body ext dataset submission output flags st).2
               = trace st ++ tr ->
               new_events st (evaluate ext dataset submission output flags st).2
               = tr) as Hnew.
    { intros tr E. apply new_events_app. by rewrite Et. }
    assert (forall Q (tr : list Ev),
               Q ∈ setup_phases (resolve_kinds (environ st) dataset).2
                                submission output ->
               Forall Q tr -> Forall not_semantic tr) as Hsetup.
    { intros Q tr HQ HF. eapply Forall_impl; [exact HF|]. intros ev Hev.
      by eapply setup_event_plain. }
    assert (forall tr : list Ev, Forall not_semantic tr ->
               exists before sem after,
                 tr = before ++ sem ++ after /\ Forall not_semantic before
                 /\ reads_meta_first sem /\ Forall not_semantic after) as Hplain.
    { intros tr H. exists tr, [], []. rewrite !app_nil_r.
      split; [done|]. split; [done|]. split; [by left|constructor]. }
    revert Hnew. rewrite evaluate_body_run. intros Hnew.
    set (gold := (resolve_kinds (environ st) dataset).2) in *.
    destruct (ensure_dataset_emits gold st) as (t1 & T1 & F1).
    apply Hsetup in F1; [|set_solver].
    destruct (ensure_dataset ext gold st) as [[d|e] st1]; cbn [snd] in T1.
    2:{ rewrite (Hnew t1) by done. by apply Hplain. }
    destruct (stage_submission_emits submission st1) as (t2 & T2 & F2).
    apply Hsetup in F2; [|set_solver].
    destruct (stage_submission ext submission st1) as [[s|e] st2]; cbn [snd] in T2.
    2:{ rewrite (Hnew (t1 ++ t2)) by (cbn [snd]; by rewrite T2, T1, <- app_assoc).
        apply Hplain. by apply Forall_app. }
    destruct (ensure_output_emits output st2) as (t3 & T3 & F3).
    apply Hsetup in F3; [|set_solver].
    destruct (ensure_output ext output st2) as [[[]|e] st3]; cbn [snd] in T3.
    2:{ rewrite (Hnew (t1 ++ t2 ++ t3))
          by (cbn [snd]; by rewrite T3, T2, T1, <- !app_assoc).
        apply Hplain. rewrite !Forall_app. done. }
    destruct (run_tracks_semantic_split d s output
                (resolve_kinds (environ st) dataset).1 flags
                (kinds_dev_test (environ st) dataset) st3)
      as (tr & T4 & before & sem & after & -> & Hb & Hs & Ha).
    rewrite (Hnew ((t1 ++ t2 ++ t3) ++ before ++ sem ++ after))
      by (by rewrite T4, T3, T2, T1, <- !app_assoc).
    exists ((t1 ++ t2 ++ t3) ++ before), sem, after.
    split; [by rewrite <- !app_assoc|]. rewrite !Forall_app. done.
Qed.

(** * More on the drivers and the command *)

(** ** Loops that return normally *)

(** If every iteration that returns normally logs [events x y] for some
    [y] with [good x y st] and prints [line x], a loop that returns
    normally has done so for each element, in order. *)
Lemma for_each_ok_chain {X Y} (body : X -> M unit)
    (good : X -> Y -> Prop) (events : X -> Y -> list Ev) (line : X -> string) :
  (forall x st st1, body x st = (Ok tt, st1) ->
     exists y, good x y
               /\ trace st1 = trace st ++ events x y
               /\ stdout st1 = stdout st ++ [line x]) ->
  forall l st st', for_each l body st = (Ok tt, st') ->
    exists ys, Forall2 good l ys
               /\ trace st' = trace st ++ concat (zip_with events l ys)
               /\ stdout st' = stdout st ++ map line l.
Proof.
  intros Hbody. induction l as [|x l IH]; intros st st' H.
  - injection H as <-. exists []. rewrite !app_nil_r. by repeat split.
  - cbn [for_each] in H. apply bind_ok in H as ([] & st1 & Hx & Hl).
    apply Hbody in Hx as (y & Hy & Tx & Sx).
    apply IH in Hl as (ys & Hys & Tl & Sl).
    exists (y :: ys). split; [by constructor|].
    split.
    + rewrite Tl, Tx. cbn. by rewrite <- app_assoc.
    + rewrite Sl, Sx. cbn. by rewrite <- app_assoc.
Qed.






Lemma eval_phonetic_ok (d s o : Path) (kinds : list string) (st st' : St) :
  eval_phonetic ext d (PPath s) o kinds st = (Ok tt, st') ->
  trace st' = trace st ++ concat (map (phonetic_split_events d s o) kinds)
  /\ stdout st'
     = stdout st ++ map (fun kind => "Evaluating phonetic " +:+ kind +:+ "...") kinds.
Proof.
  intros H. unfold eval_phonetic in H.
  eapply (for_each_ok_chain _ (fun _ (_ : unit) => True)
            (fun kind _ => phonetic_split_events d s o kind)
            (fun kind => "Evaluating phonetic " +:+ kind +:+ "...")) in H.
  - destruct H as (ys & Hys & Htrace & Hout). split; [|done].
    rewrite Htrace. f_equal. f_equal. clear -Hys.
    induction Hys as [|kind [] kinds ys _ _ IH]; [done|]. cbn. by rewrite IH.
  - clear. intros kind sa sz Hbody.
    apply bind_ok in Hbody as ([] & ? & [= <-] & Hbody).
    apply bind_ok in Hbody as (sub & ? & [= <- <-] & Hcall).
    apply call_ok in Hcall as (w1 & _ & ->). by exists tt.
Qed.

Lemma getitem_ok (o : pyobj) (key : string) (v : pyobj) :
  getitem o key = Ok v <-> exists d, o = PyDict d /\ d !! key = Some v.
Proof.
  split.
  - destruct o as [| | | | |d]; try discriminate. cbn.
    destruct (d !! key) as [v'|] eqn:E; [|discriminate].
    intros [= <-]. eauto.
  - intros (d & -> & E). cbn. by rewrite E.
Qed.





(** X7: when the phonetic driver returns normally on a directory
    submission, it has called the scorer once for each split in order,
    each time with the features directory of that split, with the one
    gold location [<dataset>/phonetic/abx_features], which does not depend
    on the split, and with the output directory itself; the driver writes
    no table of its own. *)
Theorem X7_phonetic_driver_one_call_per_split
    (d s o : Path) (kinds : list string) (st st' : St) :
  eval_phonetic ext d (PPath s) o kinds st = (Ok tt, st') ->
  new_events st st' = concat (map (phonetic_split_events d s o) kinds)
  /\ phonetic_calls (new_events st st') = kinds
  /\ csv_writes (new_events st st') = []
  /\ Forall (fun ev => gold_paths ev = [d // "phonetic" // "abx_features"])
            (new_events st st')
  /\ stdout st'
     = stdout st ++ map (fun kind => "Evaluating phonetic " +:+ kind +:+ "...") kinds.
Proof.
  intros H. apply eval_phonetic_ok in H as [Htrace Hout].
  rewrite (new_events_app _ _ _ Htrace). split; [done|].
  split; [|split; [|split; [|done]]]; clear;
    induction kinds as [|kind kinds IH]; try done; cbn [map concat].
  - unfold phonetic_calls in *. by rewrite omap_app, IH.
  - apply Forall_app. split; [by repeat constructor|done].
Qed.

(** ** Laws of the monad *)

Lemma bind_assoc {A B C} (m : M A) (k1 : A -> M B) (k2 : B -> M C) (st : St) :
  bind (bind m k1) k2 st = bind m (fun a => bind (k1 a) k2) st.
Proof. unfold bind. by destruct (m st) as [[a|e] st1]. Qed.

Lemma bind_print {B} (line : string) (k : unit -> M B) (st : St) :
  bind (print line) k st
  = k tt (mkState (world st) (environ st) (stdout st ++ [line])
                  (atexit st) (trace st)).
Proof. reflexivity. Qed.

Lemma trace_after_call {A B} (ev : Ev) (f : World -> Res A * World)
    (k : A -> M B) (P : Ev -> Prop) :
  (forall a, emits P (k a)) ->
  forall st, exists tail, trace (bind (call ev f) k st).2 = trace st ++ ev :: tail.
Proof.
  intros Hk st. unfold bind, call.
  destruct (f (world st)) as [[a|e] w].
  - match goal with
    | |- context [k a ?s0] => destruct (Hk a s0) as (tail & E & _)
    end.
    exists tail. rewrite E. cbn. by rewrite <- app_assoc.
  - by exists [].
Qed.

(** ** Splits one after the other *)

Lemma for_each_app {X} (l1 l2 : list X) (body : X -> M unit) (st : St) :
  for_each (l1 ++ l2) body st = (for_each l1 body ;;; for_each l2 body) st.
Proof.
  revert st. induction l1 as [|x l1 IH]; intros st; [done|].
  cbn [app for_each]. unfold bind at 1 2 3.
  destruct (body x st) as [[[]|e] st1]; [|done]. apply IH.
Qed.

(** X8: the lexical, syntactic and phonetic drivers treat the splits one
    after the other and keep nothing from one split to the next: running a
    driver on the splits [kinds1 ++ kinds2] is running it on [kinds1] and
    then, if that returns normally, on [kinds2]; the result and the final
    state are the same, whatever the submission and whatever the scorers
    do. *)
Theorem X8_drivers_compose_over_splits
    (d : Path) (s : PathLike) (o : Path) (kinds1 kinds2 : list string) (st : St) :
  eval_lexical ext d s o (kinds1 ++ kinds2) st
  = (eval_lexical ext d s o kinds1 ;;; eval_lexical ext d s o kinds2) st
  /\ eval_syntactic ext d s o (kinds1 ++ kinds2) st
     = (eval_syntactic ext d s o kinds1 ;;; eval_syntactic ext d s o kinds2) st
  /\ eval_phonetic ext d s o (kinds1 ++ kinds2) st
     = (eval_phonetic ext d s o kinds1 ;;; eval_phonetic ext d s o kinds2) st.
Proof.
  unfold eval_lexical, eval_syntactic, eval_phonetic.
  repeat split; apply for_each_app.
Qed.

(** ** The metadata record *)

(** X9: the semantic driver starts scoring exactly when the metadata
    record is an accepted one.  If it is, with values [metric] and
    [pooling] (of any type: they are not checked), the driver reads and
    parses the record and calls the scorer for the first split with these
    values.  If it is not (no directory submission, unreadable or
    unparsable file, a level that is not a mapping, a missing key) the
    driver fails, whatever the splits, without calling the scorer or
    writing anything. *)
Theorem X9_semantic_driver_scores_iff_metadata_accepted
    (d : Path) (submission : PathLike) (o : Path) (st : St) :
  (forall metric pooling,
      accepted_metadata ext (world st) submission metric pooling ->
      forall kind kinds,
      exists s text tail,
        submission = PPath s
        /\ new_events st (eval_semantic ext d submission o (kind :: kinds) st).2
           = EvReadText (s // "meta.yaml") :: EvYamlLoad text
             :: EvSemantic (d // "semantic" // kind // "gold.csv")
                           (d // "semantic" // kind // "pairs.csv")
                           (s // "semantic" // kind) metric pooling
             :: tail)
  /\ ((~ exists metric pooling,
          accepted_metadata ext (world st) submission metric pooling) ->
      forall kinds,
        (exists e, (eval_semantic ext d submission o kinds st).1 = Raise e)
        /\ Forall (fun ev => event_track ev = None /\ is_score_write ev = false)
                  (new_events st (eval_semantic ext d submission o kinds st).2)).
Proof.
  split.
  - intros metric pooling (s & text & top & dp & ds & -> & Htext & Hmeta & H1 & H2
                           & H3 & H4) kind kinds.
    exists s, text. unfold eval_semantic.
    rewrite bind_lift. cbn [truediv]. rewrite bind_query, Htext.
    rewrite bind_pure_call, Hmeta, logged_logged. cbn [app].
    assert (forall dict key v, dict !! key = Some v ->
                               getitem (PyDict dict) key = Ok v) as Hget
      by (intros dict key v E; apply getitem_ok; eauto).
    apply Hget in H1, H2, H3, H4.
    rewrite bind_lift, H1, bind_lift, H2, bind_lift, H3.
    rewrite bind_lift, bind_lift, H2, bind_lift, H4.
    cbn [for_each]. rewrite bind_assoc, bind_print. cbv beta.
    rewrite bind_assoc, bind_lift. cbn [truediv]. rewrite bind_assoc.
    match goal with
    | |- context [bind (call ?ev ?f) ?k ?s0] =>
        destruct (trace_after_call ev f k (fun _ => True)) with (st := s0)
          as (tail & Htail)
    end.
    { intros score. apply emits_bind; [by apply emits_write_score|intros _].
      eapply emits_mono; [|apply (semantic_loop_emits d (PPath s) o kinds metric pooling)].
      done. }
    exists tail. split; [done|]. apply new_events_app. etrans; [exact Htail|].
    cbn. by rewrite <- app_assoc.
  - intros Hnot kinds. unfold eval_semantic. rewrite bind_lift.
    destruct submission as [s|dir]; cbn [truediv].
    2:{ split; [eauto|]. cbn [snd].
        rewrite new_events_app with (tr := []); [constructor|by rewrite app_nil_r]. }
    rewrite bind_query.
    destruct (path_read_text ext (world st) (s // "meta.yaml")) as [text|e] eqn:Htext.
    2:{ split; [eauto|]. cbn [snd]. rewrite new_events_logged. by repeat constructor. }
    rewrite bind_pure_call, logged_logged. cbn [app].
    assert (forall e,
               (exists e', (Raise e : Res unit) = Raise e')
               /\ Forall (fun ev : Ev => event_track ev = None
                                          /\ is_score_write ev = false)
                         (new_events st
                            (logged st [EvReadText (s // "meta.yaml");
                                        EvYamlLoad text]))) as Hfail.
    { intros e. split; [eauto|]. rewrite new_events_logged. by repeat constructor. }
    destruct (yaml_safe_load ext text) as [meta|e] eqn:Hmeta; [|apply Hfail].
    rewrite bind_lift.
    destruct (getitem meta "parameters") as [parameters|e] eqn:H1; [|apply Hfail].
    rewrite bind_lift.
    destruct (getitem parameters "semantic") as [semantic|e] eqn:H2; [|apply Hfail].
    rewrite bind_lift.
    destruct (getitem semantic "metric") as [metric|e] eqn:H3; [|apply Hfail].
    rewrite bind_lift, bind_lift, H2, bind_lift.
    destruct (getitem semantic "pooling") as [pooling|e] eqn:H4; [|apply Hfail].
    exfalso. apply Hnot. exists metric, pooling.
    apply getitem_ok in H1 as (top & -> & H1).
    apply getitem_ok in H2 as (dp & -> & H2).
    apply getitem_ok in H3 as (ds & -> & H3).
    apply getitem_ok in H4 as (ds' & [= <-] & H4).
    by exists s, text, top, dp, ds.
Qed.

(** ** The gold root *)

(** X2: the outcome of the check of the gold root.  If its resolution
    fails (the path does not exist), the body fails with the exception of
    [resolve(strict=True)] after that one call; the message
    [dataset not found] is not produced.  If the path resolves to something
    that is not a directory, the command prints
    [ERROR: dataset not found: <resolved path>] and exits with [-1].  In
    both cases the submission has not been looked at and the world is
    unchanged. *)
Theorem X2_gold_root_check
    (dataset submission output : Path) (flags : Flags) (st : St) :
  let gold := (resolve_kinds (environ st) dataset).2 in
  match path_resolve ext (world st) gold with
  | Raise e =>
      evaluate_body ext dataset submission output flags st
      = (Raise e, logged st [EvResolve gold])
  | Ok d =>
      path_is_dir ext (world st) d = false ->
      evaluate ext dataset submission output flags st
      = (Raise (SystemExit (-1)),
         mkState (world st) (environ st)
                 (stdout st ++ ["ERROR: dataset not found: " +:+ str d])
                 (atexit st) (trace st ++ [EvResolve gold; EvIsDir d]))
      /\ (main ext dataset submission output flags st).1 = (-1)%Z
  end.
Proof.
  intros gold. unfold main.
  rewrite evaluate_run, evaluate_body_run, ensure_dataset_run. fold gold.
  destruct (path_resolve ext (world st) gold) as [d|e]; [|done].
  intros Hdir. by rewrite Hdir.
Qed.

(** ** A zipped submission *)

Lemma run_tracks_str_state (d : Path) (dir : string) (o : Path)
    (kinds : list string) (flags : Flags) (st : St) :
  let st' := (run_tracks ext d (PStr dir) o kinds flags st).2 in
  world st' = world st /\ trace st' = trace st /\ atexit st' = atexit st.
Proof.
  unfold run_tracks. destruct flags as [[] [] [] []]; destruct kinds; by cbn.
Qed.

(** X1: when the submission is a zip archive, validation, unpacking and
    the creation of the output directory can all succeed, but
    [submission] is then the [str] returned by [mkdtemp], not a path, and
    with any track enabled the run fails with the [TypeError] of
    [submission / ...] in the first enabled driver.  The error is not a
    [ValueError]: it passes the handler and the process ends on it (status
    1).  No scorer has been called and nothing has been written; the
    staging directory is registered for removal. *)
Theorem X1_zipped_submission_fails_in_first_driver
    (dataset submission output : Path) (flags : Flags) (st st3 : St)
    (d : Path) (dir : string) :
  (d0 <- ensure_dataset ext (resolve_kinds (environ st) dataset).2 ;;
   s <- stage_submission ext submission ;;
   ensure_output ext output ;;; ret (d0, s)) st = (Ok (d, PStr dir), st3) ->
  (exists t, skipped flags t = false) ->
  let run := evaluate ext dataset submission output flags st in
  run.1 = Raise (TypeError "unsupported operand type(s) for /: 'str' and 'str'")
  /\ (main ext dataset submission output flags st).1 = 1%Z
  /\ world run.2 = world st3
  /\ new_events st run.2 = new_events st st3
  /\ Forall (fun ev => is_driver_event ev = false) (new_events st run.2)
  /\ dir ∈ atexit run.2.
Proof.
  intros Hsetup Henabled run.
  apply bind_ok in Hsetup as (d0 & st1 & E1 & Hsetup).
  apply bind_ok in Hsetup as (s & st2 & E2 & Hsetup).
  apply bind_ok in Hsetup as ([] & st3' & E3 & Hret).
  injection Hret as Hd0 Hs Hst3. subst d0 s st3'.
  assert (run = run_tracks ext d (PStr dir) output
                  (resolve_kinds (environ st) dataset).1 flags st3) as Hrun.
  { subst run. rewrite evaluate_run, evaluate_body_run, E1, E2, E3.
    pose proof (resolve_kinds_cases (environ st) dataset) as Hk.
    destruct (environ st !! TEST_GOLD); rewrite Hk; cbn [fst];
      (rewrite (surjective_pairing (run_tracks _ _ _ _ _ _ _));
       by rewrite run_tracks_unzipped). }
  assert (run.1 = Raise (TypeError "unsupported operand type(s) for /: 'str' and 'str'"))
    as Hres.
  { rewrite Hrun. pose proof (resolve_kinds_cases (environ st) dataset) as Hk.
    destruct (environ st !! TEST_GOLD); rewrite Hk; by apply run_tracks_unzipped. }
  destruct (run_tracks_str_state d dir output
              (resolve_kinds (environ st) dataset).1 flags st3) as (Hw & Ht & Ha).
  rewrite <- Hrun in Hw, Ht, Ha.
  assert (new_events st run.2 = new_events st st3) as Hnew
    by (unfold new_events; by rewrite Ht).
  split; [done|]. split.
  { unfold main. fold run. rewrite (surjective_pairing run), Hres. done. }
  split; [done|]. split; [done|]. split.
  - rewrite Hnew.
    destruct (ensure_dataset_emits (resolve_kinds (environ st) dataset).2 st)
      as (t1 & T1 & F1).
    destruct (stage_submission_emits submission st1) as (t2 & T2 & F2).
    destruct (ensure_output_emits output st2) as (t3 & T3 & F3).
    rewrite E1 in T1. rewrite E2 in T2. rewrite E3 in T3. cbn [snd] in T1, T2, T3.
    rewrite new_events_app with (tr := t1 ++ t2 ++ t3)
      by (by rewrite T3, T2, T1, <- !app_assoc).
    rewrite !Forall_app. repeat split;
      (eapply Forall_impl; [eassumption|]); intros ev Hev; by destruct ev.
  - rewrite Ha. destruct (ensure_output_quiet output st2) as [Q3 _].
    rewrite E3 in Q3. cbn [snd] in Q3. rewrite Q3.
    revert E2. rewrite stage_submission_run.
    destruct (path_resolve ext (world st1) submission) as [s0|e]; [|done].
    destruct (path_is_file ext (world st1) s0 && zipfile_is_zipfile ext (world st1) s0).
    + destruct (tempfile_mkdtemp ext (world st1)) as [[dir0|e] w1]; [|done].
      destruct (zipfile_extractall ext s0 dir0 w1) as [[[]|e] w2]; [|done].
      intros [= <- <-]. cbn [atexit]. apply elem_of_app. right. by left.
    + by destruct (path_is_dir ext (world st1) s0).
Qed.

(** ** The files of a run that returns normally *)









(** ** The staging directory *)

Lemma registrations_app (t1 t2 : list Ev) :
  registrations (t1 ++ t2) = registrations t1 ++ registrations t2.
Proof. unfold registrations. apply omap_app. Qed.

Lemma registrations_plain (tr : list Ev) :
  Forall no_staging tr -> registrations tr = [].
Proof.
  induction 1 as [|ev tr Hev _ IH]; [done|]. destruct ev; try done; exact IH.
Qed.

Lemma registered_before_extraction_plain (tr : list Ev) :
  Forall no_staging tr -> registered_before_extraction tr.
Proof.
  intros H i archive dir Hi. rewrite Forall_forall in H.
  apply list_elem_of_lookup_2 in Hi. by apply H in Hi.
Qed.

Lemma registered_before_extraction_app (t1 t2 : list Ev) :
  registered_before_extraction t1 -> registered_before_extraction t2 ->
  registered_before_extraction (t1 ++ t2).
Proof.
  intros H1 H2 i archive dir Hi.
  apply lookup_app_Some in Hi as [Hi|[Hlen Hi]].
  - destruct (H1 _ _ _ Hi) as (j & Hj & Hreg). exists j. split; [done|].
    by apply lookup_app_l_Some.
  - destruct (H2 _ _ _ Hi) as (j & Hj & Hreg). exists (length t1 + j).
    split; [lia|]. rewrite lookup_app_r by lia.
    by replace (length t1 + j - length t1) with j by lia.
Qed.

Lemma ensure_dataset_quiet (gold : Path) : quiet (ensure_dataset ext gold).
Proof.
  unfold ensure_dataset. apply quiet_bind; [done|intros d].
  apply quiet_bind; [done|intros b]. by destruct b.
Qed.

Lemma stage_submission_registers (submission : Path) (st : St) :
  exists staging,
    trace (stage_submission ext submission st).2 = trace st ++ staging
    /\ atexit (stage_submission ext submission st).2
       = atexit st ++ registrations staging
    /\ length (registrations staging) <= 1
    /\ registered_before_extraction staging.
Proof.
  rewrite stage_submission_run.
  assert (forall tr : list Ev,
             Forall no_staging tr ->
             atexit st = atexit st ++ registrations tr
             /\ length (registrations tr) <= 1
             /\ registered_before_extraction tr) as Hplain.
  { intros tr H. rewrite (registrations_plain _ H), app_nil_r.
    split; [done|]. split; [cbn; lia|by apply registered_before_extraction_plain]. }
  destruct (path_resolve ext (world st) submission) as [s|e].
  2:{ eexists. split; [reflexivity|]. apply Hplain. by repeat constructor. }
  destruct (path_is_file ext (world st) s && zipfile_is_zipfile ext (world st) s).
  - destruct (tempfile_mkdtemp ext (world st)) as [[dir|e] w1].
    + destruct (zipfile_extractall ext s dir w1) as [r w2].
      eexists. split; [reflexivity|]. split; [done|]. split; [cbn; lia|].
      intros i archive dir' Hi.
      do 5 (destruct i as [|i]; [discriminate Hi|]).
      destruct i as [|i]; [|done]. injection Hi as _ <-.
      exists 4. split; [lia|done].
    + eexists. split; [reflexivity|]. apply Hplain. by repeat constructor.
  - eexists. split; [reflexivity|]. apply Hplain.
    destruct (path_is_file ext (world st) s); by repeat constructor.
Qed.

Lemma run_tracks_driver_events (d : Path) (s : PathLike) (o : Path)
    (kinds : list string) (flags : Flags) :
  emits (fun ev => is_driver_event ev = true) (run_tracks ext d s o kinds flags).
Proof.
  destruct s as [s|dir].
  - intros st. destruct (run_tracks_phases d s o kinds flags st) as (tr & E & H).
    exists tr. split; [done|]. eapply in_phases_all; [exact H|].
    intros Q HQ ev. unfold track_phases in HQ. cbn [map] in HQ.
    elem_cases HQ; subst Q; intros [_ Hstep]; cbn [track_step] in Hstep.
    + by destruct Hstep as (kind & _ & [->|(df & strat & _ & ->)]).
    + by destruct Hstep as [->|[[text ->]|(kind & _ & [(m & q & ->)|(df & ->)])]].
    + by destruct Hstep as (kind & _ & [->|(df & strat & _ & ->)]).
    + by destruct Hstep as (kind & _ & ->).
  - eapply emits_mono; [|apply run_tracks_str]. done.
Qed.

(** The trace of every run of the body: staging calls between calls that
    neither register nor extract. *)
Lemma staged_run_shape (dataset submission output : Path) (flags : Flags) (st : St) :
  let st1 := (evaluate_body ext dataset submission output flags st).2 in
  exists before staging after,
    trace st1 = trace st ++ before ++ staging ++ after
    /\ Forall no_staging before /\ Forall no_staging after
    /\ atexit st1 = atexit st ++ registrations staging
    /\ length (registrations staging) <= 1
    /\ registered_before_extraction staging.
Proof.
  cbn zeta. rewrite evaluate_body_run.
  set (gold := (resolve_kinds (environ st) dataset).2).
  set (kinds := (resolve_kinds (environ st) dataset).1).
  destruct (ensure_dataset_emits gold st) as (t1 & T1 & F1).
  destruct (ensure_dataset_quiet gold st) as [Q1 _].
  assert (Forall no_staging t1) as N1.
  { eapply Forall_impl; [exact F1|]. intros ev Hev; by destruct ev. }
  destruct (ensure_dataset ext gold st) as [[d|e] st1]; cbn [snd] in *.
  2:{ exists t1, [], []. rewrite !app_nil_r.
      repeat split; try done; try (cbn; lia);
        by apply registered_before_extraction_plain. }
  destruct (stage_submission_registers submission st1) as (t2 & T2 & A2 & L2 & R2).
  destruct (stage_submission ext submission st1) as [[s|e] st2]; cbn [snd] in *.
  2:{ exists t1, t2, []. rewrite !app_nil_r, T2, T1, A2, Q1, <- app_assoc.
      by repeat split. }
  destruct (ensure_output_emits output st2) as (t3 & T3 & F3).
  destruct (ensure_output_quiet output st2) as [Q3 _].
  assert (Forall no_staging t3) as N3.
  { eapply Forall_impl; [exact F3|]. intros ev Hev; by destruct ev. }
  destruct (ensure_output ext output st2) as [[[]|e] st3]; cbn [snd] in *.
  2:{ exists t1, t2, t3. rewrite T3, T2, T1, Q3, A2, Q1, <- !app_assoc.
      by repeat split. }
  destruct (run_tracks_driver_events d s output kinds flags st3) as (t4 & T4 & F4).
  destruct (run_tracks_quiet d s output kinds flags st3) as [Q4 _].
  exists t1, t2, (t3 ++ t4). rewrite T4, T3, T2, T1, Q4, Q3, A2, Q1, <- !app_assoc.
  repeat split; try done. apply Forall_app. split; [done|].
  eapply Forall_impl; [exact F4|]. intros ev Hev; by destruct ev.
Qed.

(** X3: in every run, the directories registered with [atexit] are
    exactly those of the registrations in the trace, there is at most one,
    and an archive is never extracted into a directory that was not
    registered for removal before.  When the process ends, whether the run
    returned, failed or exited, the registered directory (if any) is
    removed with [shutil.rmtree] and nothing else is done to the world. *)
Theorem X3_staging_directory_registered_then_removed
    (dataset submission output : Path) (flags : Flags) (st : St) :
  let st' := (evaluate ext dataset submission output flags st).2 in
  let tr := new_events st st' in
  atexit st' = atexit st ++ registrations tr
  /\ length (registrations tr) <= 1
  /\ registered_before_extraction tr
  /\ (atexit st = [] ->
      world (main ext dataset submission output flags st).2
      = fold_left (fun w dir => shutil_rmtree ext dir w) (registrations tr)
                  (world st')).
Proof.
  intros st' tr.
  destruct (evaluate_same_effects dataset submission output flags st) as (Et & _ & Ea).
  destruct (staged_run_shape dataset submission output flags st)
    as (before & staging & after & T & Nb & Na & A & L & R).
  cbn zeta in Et, Ea, T, A. fold st' in Et, Ea.
  rewrite <- Et in T. rewrite <- Ea in A.
  assert (tr = before ++ staging ++ after) as -> by (by apply new_events_app).
  assert (registrations (before ++ staging ++ after) = registrations staging) as Hreg.
  { rewrite !registrations_app, (registrations_plain _ Nb), (registrations_plain _ Na).
    by rewrite app_nil_r. }
  rewrite Hreg. split; [done|]. split; [done|]. split.
  - apply registered_before_extraction_app;
      [by apply registered_before_extraction_plain|].
    apply registered_before_extraction_app;
      [done|by apply registered_before_extraction_plain].
  - intros Hnil. unfold main.
    rewrite (surjective_pairing (evaluate ext dataset submission output flags st)).
    fold st'. unfold run_atexit. cbn [snd world]. rewrite A, Hnil. cbn [app].
    destruct (registrations staging) as [|dir [|dir' rest]]; [done|done|].
    cbn in L. lia.
Qed.

End Reasoning.

(** * Runs on the concrete world *)

Section Runs.
Import Toy.

(** C1 on two runs: without the variable the split set is [dev] and the
    gold root is the dataset argument; with it the split set is [dev; test]
    and the gold root is the variable's value, although the dataset
    argument names a directory that does not exist. *)
Lemma C1_witness :
  (resolve_kinds (environ (start ∅)) (p "/data") = (["dev"], p "/data")
   /\ (main ext (p "/data") (p "/sub") (p "/out") only_lexical (start ∅)).1 = 0%Z)
  /\ (resolve_kinds (environ (start {[TEST_GOLD := "/gold"]})) (p "/nowhere")
      = (["dev"; "test"], p "/gold")
      /\ (main ext (p "/nowhere") (p "/sub") (p "/out") only_lexical
               (start {[TEST_GOLD := "/gold"]})).1 = 0%Z).
Proof.
  split; (split; [|vm_compute; reflexivity]).
  - exact (proj1 (C1_split_set_and_gold_root ext (p "/data") (p "/sub") (p "/out")
                    only_lexical (start ∅))).
  - exact (proj1 (C1_split_set_and_gold_root ext (p "/nowhere") (p "/sub") (p "/out")
                    only_lexical (start {[TEST_GOLD := "/gold"]}))).
Defined.

(** C2 as stated fails on a submission path that does not exist: the gold
    root is a directory, the path is neither a directory nor a zip file,
    and the body fails, but with [FileNotFoundError] from
    [resolve(strict=True)], not with a [ValueError]; the handler lets it
    through, no [ERROR:] line is printed and the exit status is that of an
    uncaught exception. *)
Lemma C2_counterexample :
  let st := start ∅ in
  path_resolve ext (world st) (p "/data") = Ok (p "/data")
  /\ path_is_dir ext (world st) (p "/data") = true
  /\ path_is_dir ext (world st) (p "/missing") = false
  /\ path_is_file ext (world st) (p "/missing") = false
  /\ ~ rejected_with_ValueError ext (p "/data") (p "/missing") (p "/out")
                                 only_lexical st
  /\ evaluate ext (p "/data") (p "/missing") (p "/out") only_lexical st
     = (Raise (FileNotFoundError
                 "[Errno 2] No such file or directory: '/missing'"),
        logged st [EvResolve (p "/data"); EvIsDir (p "/data");
                   EvResolve (p "/missing")])
  /\ (main ext (p "/data") (p "/missing") (p "/out") only_lexical st).1 = 1%Z.
Proof.
  repeat split; try (vm_compute; reflexivity).
  intros [message H]. vm_compute in H. discriminate H.
Defined.

(** C2, amended, on a submission that is a plain text file. *)
Lemma C2_witness :
  let st := start ∅ in
  let run := evaluate ext (p "/data") (p "/notes.txt") (p "/out") only_lexical st in
  run.1 = Raise (SystemExit (-1))
  /\ stdout run.2
     = ["ERROR: submssion is not a zip file or a directory: /notes.txt"]
  /\ world run.2 = world st.
Proof.
  pose proof (C2_submission_neither_directory_nor_archive ext
                (p "/data") (p "/notes.txt") (p "/out") only_lexical (start ∅)
                (p "/data") eq_refl eq_refl) as H.
  cbv zeta in H.
  change (path_resolve ext (world (start ∅)) (p "/notes.txt"))
    with (Ok (A := Path) (p "/notes.txt")) in H.
  cbv iota in H.
  destruct (H eq_refl eq_refl) as (_ & H1 & H2 & _ & H3 & _).
  split; [exact H1|split; [exact H2|exact H3]].
Defined.

(** C3 on a submission whose metadata lacks [pooling]: the semantic driver
    fails with the [KeyError] of the lookup after the read and the parse,
    and nothing is scored. *)
Lemma C3_witness :
  let st := start ∅ in
  let run := eval_semantic ext (p "/data") (PPath (p "/sub_nopool")) (p "/out")
                           ["dev"] st in
  run.1 = Raise (KeyError "pooling")
  /\ world run.2 = world st
  /\ Forall (fun ev => is_meta_read ev = true /\ is_score_write ev = false)
            (new_events st run.2).
Proof.
  exact (proj1 (C3_semantic_metadata_read_once_before_scoring ext)
           (p "/data") (PPath (p "/sub_nopool")) (p "/out") ["dev"] (start ∅)).
Defined.

(** C4 on a run whose lexical track succeeds and whose semantic track then
    fails with a [ValueError] (the gold root has no semantic gold): one
    [ERROR:] line, exit status [-1], and the three lexical score files are
    still on the disk when the process is gone. *)
Lemma C4_witness :
  let st := start ∅ in
  let failure := evaluate_body ext (p "/gold") (p "/sub") (p "/out")
                               lexical_and_semantic st in
  let process := main ext (p "/gold") (p "/sub") (p "/out") lexical_and_semantic st in
  failure.1 = Raise (ValueError "file not found: /gold/semantic/dev/gold.csv")
  /\ process.1 = (-1)%Z
  /\ world process.2 = world failure.2
  /\ is_Some (world process.2 !! "/out/score_lexical_dev_by_pair.csv")
  /\ is_Some (world process.2 !! "/out/score_lexical_dev_by_frequency.csv")
  /\ is_Some (world process.2 !! "/out/score_lexical_dev_by_length.csv").
Proof.
  intros st failure process.
  assert (failure = (Raise (ValueError "file not found: /gold/semantic/dev/gold.csv"),
                     failure.2)) as Hfail by (vm_compute; reflexivity).
  destruct (C4_value_error_is_reported_without_rollback ext _ _ _ _ _ _ _ Hfail)
    as (_ & Hexit & Hkeep).
  destruct Hkeep as [_ Hworld].
  { apply Exists_exists.
    exists (EvToCsv (["id"; "score"], [["w1"; "0.7500"]])
                    (p "/out" // "score_lexical_dev_by_pair.csv") score_kwargs).
    split; [|reflexivity]. vm_compute. repeat constructor. }
  split; [by rewrite Hfail|]. split; [exact Hexit|].
  split; [exact (Hworld eq_refl)|].
  repeat split; vm_compute; eauto.
Defined.

(** C5 as stated fails on the semantic track: its file is named
    [score_semantic_dev.csv], which has no stratification part and so is
    not of the form [score_<track>_<split>_<stratification>.<ext>]. *)
Lemma C5_counterexample :
  ~ Forall csv_as_specified
      (new_events (start ∅)
         (evaluate ext (p "/data") (p "/sub") (p "/out") only_semantic (start ∅)).2).
Proof.
  intros H. rewrite Forall_forall in H.
  specialize (H (EvToCsv semantic_table (p "/out" // "score_semantic_dev.csv")
                         score_kwargs)).
  destruct H as [(track & split & stratification & extension & Hname) _].
  { vm_compute. repeat constructor. }
  pose proof (score_name_underscores track split stratification extension) as Hcount.
  rewrite <- Hname in Hcount. vm_compute in Hcount. lia.
Defined.

(** C5, amended, on the run with all four tracks. *)
Lemma C5_witness :
  map (fun w => name w.1.2)
      (csv_writes (new_events (start ∅)
         (evaluate ext (p "/data") (p "/sub") (p "/out") all_tracks (start ∅)).2))
  = [ "score_lexical_dev_by_pair.csv"; "score_lexical_dev_by_frequency.csv";
      "score_lexical_dev_by_length.csv"; "score_semantic_dev.csv";
      "score_syntactic_dev_by_pair.csv"; "score_syntactic_dev_by_type.csv" ]
  /\ Forall (csv_as_written (p "/out") ["dev"])
            (new_events (start ∅)
               (evaluate ext (p "/data") (p "/sub") (p "/out") all_tracks (start ∅)).2).
Proof.
  split; [vm_compute; reflexivity|].
  exact (C5_score_files_as_written ext (p "/data") (p "/sub") (p "/out")
           all_tracks (start ∅)).
Defined.





(** C9 on two runs under the override, one with a dataset argument that
    does not exist. *)
Lemma C9_witness :
  let st := start {[TEST_GOLD := "/gold"]} in
  path_resolve ext (world st) (p "/nowhere")
  = Raise (FileNotFoundError "[Errno 2] No such file or directory: '/nowhere'")
  /\ evaluate ext (p "/nowhere") (p "/sub") (p "/out") only_lexical st
     = evaluate ext (p "/data") (p "/sub") (p "/out") only_lexical st
  /\ main ext (p "/nowhere") (p "/sub") (p "/out") only_lexical st
     = main ext (p "/data") (p "/sub") (p "/out") only_lexical st.
Proof.
  split; [vm_compute; reflexivity|].
  apply (C9_dataset_argument_ignored_under_override ext _ _ _ _ _ _ "/gold").
  reflexivity.
Defined.

(** C10 on a run whose submission is a plain text file: validation fails,
    no [mkdir] is issued and the output directory, missing before, is
    missing after. *)
Lemma C10_witness :
  let st := start ∅ in
  let st' := (evaluate ext (p "/data") (p "/notes.txt") (p "/out") all_tracks st).2 in
  path_is_dir ext (world st) (p "/out") = false
  /\ Forall (fun ev => is_mkdir ev = false) (new_events st st')
  /\ path_is_dir ext (world st') (p "/out") = false.
Proof.
  intros st st'.
  pose proof (C10_output_directory_created_after_validation ext
                (p "/data") (p "/notes.txt") (p "/out") all_tracks st) as H.
  cbv zeta in H. destruct H as [_ H].
  assert (((d <- ensure_dataset ext (resolve_kinds (environ st) (p "/data")).2 ;;
            stage_submission ext (p "/notes.txt")) st).1
          = Raise (ValueError
                     "submssion is not a zip file or a directory: /notes.txt"))
    as Hfail by (vm_compute; reflexivity).
  rewrite Hfail in H. destruct H as (_ & Hno & Hworld).
  split; [vm_compute; reflexivity|]. split; [exact Hno|].
  destruct Hworld as [_ Hw]; [vm_compute; repeat constructor|].
  subst st'. rewrite Hw. vm_compute. reflexivity.
Defined.

(** A zipped submission is unpacked, and the lexical driver then fails on
    the [str] that names the directory; the staging directory is removed
    at exit. *)
Example zipped_submission_run :
  let process := main ext (p "/data") (p "/sub.zip") (p "/out") only_lexical (start ∅) in
  (evaluate ext (p "/data") (p "/sub.zip") (p "/out") only_lexical (start ∅)).1
  = Raise (TypeError "unsupported operand type(s) for /: 'str' and 'str'")
  /\ process.1 = 1%Z
  /\ world process.2 !! "/tmp/tmp0" = None.
Proof. repeat split; vm_compute; reflexivity. Qed.


End Runs.

(** * Runs on the list world *)

Section ShelfRuns.
Import Toy.

(** X1 on the zipped submission of the list world: the archive is
    extracted into the temporary directory, the lexical driver is reached
    and fails on the string, the process ends with status 1, no driver
    event is logged, and the directory is registered for removal. *)
Lemma X1_witness :
  let run := evaluate Shelf.ext (p "/data") (p "/sub.zip") (p "/out") only_lexical
                      Shelf.start in
  run.1 = Raise (TypeError "unsupported operand type(s) for /: 'str' and 'str'")
  /\ (main Shelf.ext (p "/data") (p "/sub.zip") (p "/out") only_lexical Shelf.start).1
     = 1%Z
  /\ Forall (fun ev => is_driver_event ev = false) (new_events Shelf.start run.2)
  /\ "/tmp/tmp0" ∈ atexit run.2.
Proof.
  intros run.
  assert ((d0 <- ensure_dataset Shelf.ext
                   (resolve_kinds (environ Shelf.start) (p "/data")).2 ;;
           s <- stage_submission Shelf.ext (p "/sub.zip") ;;
           ensure_output Shelf.ext (p "/out") ;;; ret (d0, s)) Shelf.start
          = (Ok (p "/data", PStr "/tmp/tmp0"),
             ((d0 <- ensure_dataset Shelf.ext
                       (resolve_kinds (environ Shelf.start) (p "/data")).2 ;;
               s <- stage_submission Shelf.ext (p "/sub.zip") ;;
               ensure_output Shelf.ext (p "/out") ;;; ret (d0, s)) Shelf.start).2))
    as Hsetup by (vm_compute; reflexivity).
  destruct (X1_zipped_submission_fails_in_first_driver Shelf.ext _ _ _ only_lexical
              _ _ _ _ Hsetup (ex_intro _ Lexical eq_refl))
    as (H1 & H2 & _ & _ & H3 & H4).
  exact (conj H1 (conj H2 (conj H3 H4))).
Defined.

(** X2 on a dataset argument that names a plain file: the path resolves,
    is not a directory, and the command prints the error and exits with
    status -1 after these two checks only. *)
Lemma X2_witness :
  evaluate Shelf.ext (p "/notes.txt") (p "/sub") (p "/out") all_tracks Shelf.start
  = (Raise (SystemExit (-1)),
     mkState Shelf.disk ∅ ["ERROR: dataset not found: /notes.txt"] []
             [EvResolve (p "/notes.txt"); EvIsDir (p "/notes.txt")])
  /\ (main Shelf.ext (p "/notes.txt") (p "/sub") (p "/out") all_tracks Shelf.start).1
     = (-1)%Z.
Proof.
  pose proof (X2_gold_root_check Shelf.ext (p "/notes.txt") (p "/sub") (p "/out")
                all_tracks Shelf.start) as H.
  cbv zeta in H.
  assert (path_resolve Shelf.ext (world Shelf.start)
            (resolve_kinds (environ Shelf.start) (p "/notes.txt")).2
          = Ok (p "/notes.txt")) as Hres by (vm_compute; reflexivity).
  rewrite Hres in H.
  destruct H as [H1 H2]; [vm_compute; reflexivity|].
  split; [|exact H2]. etrans; [exact H1|]. vm_compute. reflexivity.
Defined.

(** X3 on the zipped submission with every track skipped: the run
    succeeds, the staging directory is the one registered, the extracted
    file is on disk at the end of the command and gone once the process
    has run its exit handlers. *)
Lemma X3_witness :
  let flags := mkFlags true true true true in
  let st' := (evaluate Shelf.ext (p "/data") (p "/sub.zip") (p "/out") flags
                       Shelf.start).2 in
  let process := main Shelf.ext (p "/data") (p "/sub.zip") (p "/out") flags
                      Shelf.start in
  process.1 = 0%Z
  /\ atexit st' = ["/tmp/tmp0"]
  /\ Shelf.find_node (world st') "/tmp/tmp0/lexical/dev.txt" = Some (File "predictions")
  /\ world process.2 = Shelf.rmtree "/tmp/tmp0" (world st')
  /\ Shelf.find_node (world process.2) "/tmp/tmp0/lexical/dev.txt" = None.
Proof.
  intros flags st' process.
  destruct (X3_staging_directory_registered_then_removed Shelf.ext
              (p "/data") (p "/sub.zip") (p "/out") flags Shelf.start)
    as (Hreg & _ & _ & Hworld).
  specialize (Hworld eq_refl).
  split; [vm_compute; reflexivity|]. split; [vm_compute; reflexivity|].
  split; [vm_compute; reflexivity|]. split; [|vm_compute; reflexivity].
  etrans; [exact Hworld|]. vm_compute. reflexivity.
Defined.




(** X7 on one split: one call of the scorer and no score file written by
    the driver. *)
Lemma X7_witness :
  let st' := (eval_phonetic Shelf.ext (p "/data") (PPath (p "/sub")) (p "/out")
                            ["dev"] Shelf.start).2 in
  phonetic_calls (new_events Shelf.start st') = ["dev"]
  /\ csv_writes (new_events Shelf.start st') = [].
Proof.
  intros st'.
  destruct (X7_phonetic_driver_one_call_per_split Shelf.ext
              (p "/data") (p "/sub") (p "/out") ["dev"] Shelf.start st')
    as (_ & Hcalls & Hcsv & _).
  - vm_compute. reflexivity.
  - split; [exact Hcalls|exact Hcsv].
Defined.

(** X9 on two submissions: the full metadata record is accepted and the
    scorer is called with its two values; the record without the pooling
    is not accepted and the driver fails. *)
Lemma X9_witness :
  (exists tail,
      new_events Shelf.start
        (eval_semantic Shelf.ext (p "/data") (PPath (p "/sub")) (p "/out") ["dev"]
                       Shelf.start).2
      = EvReadText (p "/sub" // "meta.yaml") :: EvYamlLoad meta_full
        :: EvSemantic (p "/data" // "semantic" // "dev" // "gold.csv")
                      (p "/data" // "semantic" // "dev" // "pairs.csv")
                      (p "/sub" // "semantic" // "dev")
                      (PyStr "cosine") (PyStr "mean")
        :: tail)
  /\ (exists e,
         (eval_semantic Shelf.ext (p "/data") (PPath (p "/sub_nopool")) (p "/out")
                        ["dev"] Shelf.start).1 = Raise e).
Proof.
  split.
  - destruct (proj1 (X9_semantic_driver_scores_iff_metadata_accepted Shelf.ext
                       (p "/data") (PPath (p "/sub")) (p "/out") Shelf.start)
                    (PyStr "cosine") (PyStr "mean")) with (kind := "dev")
                                                          (kinds := @nil string)
      as (s & text & tail & Hs & Hnew).
    + exists (p "/sub"), meta_full,
        {[ "parameters" := PyDict {[ "semantic" :=
             PyDict (<["metric" := PyStr "cosine"]> {[ "pooling" := PyStr "mean" ]}) ]} ]},
        {[ "semantic" :=
             PyDict (<["metric" := PyStr "cosine"]> {[ "pooling" := PyStr "mean" ]}) ]},
        (<["metric" := PyStr "cosine"]> {[ "pooling" := PyStr "mean" ]}).
      repeat split; vm_compute; reflexivity.
    + injection Hs as <-. exists tail. etrans; [exact Hnew|].
      assert (text = meta_full) as ->; [|reflexivity].
      assert (new_events Shelf.start
                (eval_semantic Shelf.ext (p "/data") (PPath (p "/sub")) (p "/out")
                               ["dev"] Shelf.start).2 !! 1
              = Some (EvYamlLoad meta_full)) as H1 by (vm_compute; reflexivity).
      rewrite Hnew in H1. by injection H1.
  - apply (proj2 (X9_semantic_driver_scores_iff_metadata_accepted Shelf.ext
                    (p "/data") (PPath (p "/sub_nopool")) (p "/out") Shelf.start)).
    intros (metric & pooling & s & text & top & parameters & semantic & Hs & Htext
            & Hmeta & H1 & H2 & H3 & H4).
    injection Hs as <-. vm_compute in Htext. injection Htext as <-.
    vm_compute in Hmeta. injection Hmeta as <-.
    vm_compute in H1. injection H1 as <-.
    vm_compute in H2. injection H2 as <-.
    vm_compute in H4. discriminate H4.
Defined.


End ShelfRuns.
